(** * Group Weaver backend: storage service, fan-out hub and REST handlers

    A shallow embedding of [python-backend/services/storage_service.py],
    [python-backend/models/schemas.py] and the handlers of
    [python-backend/main.py], followed by the properties of the merge
    engine, the log buffer, the fan-out hub and the common-member
    aggregator.

    Conventions.
    - Python [str] values are [string]; the text handled here (ids, phone
      numbers, names) is taken in the ASCII range, where one character is
      one [ascii].
    - [datetime.now()] reads a clock oracle stored in the world: the k-th
      call returns [clock k].
    - The JSON file is the [file] field of the world, [None] while it does
      not exist; reading and writing it do not fail.
    - A handler is a computation [M A]: it takes the world and returns
      either a value or a raised exception, with the new world. *)

From Stdlib Require Import List String Ascii Arith Bool Lia.
From Stdlib Require Import Permutation Sorted DecimalString ZArith.
Import ListNotations.
Open Scope string_scope.
Open Scope list_scope.
Open Scope nat_scope.

(* ================================================================== *)
(** * Python built-ins used by the source *)

Module Py.

(** [s[-n:]] for [n > 0]: the last [n] characters, or all of [s] when it
    is shorter. *)
Definition last_chars (n : nat) (s : string) : string :=
  let len := String.length s in
  if len <=? n then s else substring (len - n) n s.

(** [str.isspace] on one ASCII character. *)
Definition is_space (c : ascii) : bool :=
  let n := nat_of_ascii c in
  ((9 <=? n) && (n <=? 13)) || ((28 <=? n) && (n <=? 31)) || (n =? 32).

Definition lower_char (c : ascii) : ascii :=
  let n := nat_of_ascii c in
  if (65 <=? n) && (n <=? 90) then ascii_of_nat (n + 32) else c.

(** [str.lower] *)
Fixpoint lower (s : string) : string :=
  match s with
  | EmptyString => EmptyString
  | String c s' => String (lower_char c) (lower s')
  end.

Fixpoint lstrip (s : string) : string :=
  match s with
  | EmptyString => EmptyString
  | String c s' => if is_space c then lstrip s' else s
  end.

Fixpoint rstrip (s : string) : string :=
  match s with
  | EmptyString => EmptyString
  | String c s' =>
      match rstrip s' with
      | EmptyString => if is_space c then EmptyString else String c EmptyString
      | r => String c r
      end
  end.

(** [str.strip] *)
Definition strip (s : string) : string := rstrip (lstrip s).

(** Truthiness of a [str]: non-empty. *)
Definition truthy (s : string) : bool :=
  match s with EmptyString => false | _ => true end.

(** [str(n)] for a non-negative [int]. *)
Definition str_of_nat (n : nat) : string :=
  NilZero.string_of_uint (Nat.to_uint n).

(** ** [dict] with string keys

    A Python [dict] keeps its keys in insertion order; assigning to a
    key that is present replaces the value and keeps the position. *)
Definition dict (V : Type) : Type := list (string * V).

Fixpoint get {V} (k : string) (d : dict V) : option V :=
  match d with
  | [] => None
  | (k', v) :: d' => if String.eqb k k' then Some v else get k d'
  end.

Definition mem {V} (k : string) (d : dict V) : bool :=
  match get k d with Some _ => true | None => false end.

(** [d[k] = v] *)
Fixpoint set {V} (k : string) (v : V) (d : dict V) : dict V :=
  match d with
  | [] => [(k, v)]
  | (k', v') :: d' =>
      if String.eqb k k' then (k', v) :: d' else (k', v') :: set k v d'
  end.

Definition keys {V} (d : dict V) : list string := map fst d.
Definition values {V} (d : dict V) : list V := map snd d.

(** Python leaves the iteration order of a [set] unspecified:
    [list(set(xs))] is some duplicate-free enumeration of the elements
    of [xs]. *)
Class SetOrder := {
  list_of_set : list string -> list string;
  list_of_set_NoDup : forall xs, NoDup (list_of_set xs);
  list_of_set_In : forall xs x, In x (list_of_set xs) <-> In x xs
}.

End Py.

(* ================================================================== *)
(** * models/schemas.py and the persisted JSON objects *)

Module Schemas.

(** [class Contact(BaseModel)]; a stored member has the same keys. *)
Record Contact := mkContact {
  c_id : string;
  c_name : string;
  c_phone : string;
  c_avatar : option string
}.

(** [class BroadcastList(BaseModel)] *)
Record BroadcastList := mkBroadcastList {
  id : string;
  name : string;
  members : list Contact;
  created_at : string;
  is_auto_generated : bool
}.

(** [class SyncRequest(BaseModel)] *)
Record SyncRequest := mkSyncRequest {
  device_id : string;
  lists : list BroadcastList;
  timestamp : string
}.

(** A list as it sits in the store: the keys of [BroadcastList.dict()],
    the two keys stamped by the merge, and the camel-case flag that older
    writers left in the file. A key that may be missing is an [option]. *)
Record StoredList := mkStoredList {
  l_id : string;
  l_name : string;
  l_members : list Contact;
  l_created_at : string;
  l_is_auto_generated : bool;
  l_isAutoGenerated : option bool;
  l_synced_from : option string;
  l_synced_at : option string
}.

(** [BroadcastList.dict()] *)
Definition dict_of (b : BroadcastList) : StoredList :=
  mkStoredList (id b) (name b) (members b) (created_at b)
               (is_auto_generated b) None None None.

(** One entry of the activity log. *)
Record LogEntry := mkLogEntry {
  log_id : string;
  log_timestamp : string;
  log_action : string;
  log_status : string;
  log_details : option string
}.

(** The whole persisted document; [ensure_storage_exists] and
    [save_data] always write the three keys. *)
Record StoreDocument := mkStoreDocument {
  doc_lists : list StoredList;
  doc_logs : list LogEntry;
  doc_last_sync : option string
}.

End Schemas.
Import Schemas.

(* ================================================================== *)
(** * The world and the handler monad *)

(** What [datetime.now()] returns, seen through the two renderings the
    source uses. *)
Record DateTime := mkDateTime {
  isoformat : string;        (* .isoformat() *)
  timestamp_repr : string    (* the text of .timestamp() in an f-string *)
}.

(** Exceptions, all subclasses of [Exception]. *)
Inductive PyException :=
| HTTPException (status_code : nat) (detail : string)
| FileNotFoundError (path : string)
| WebSocketDisconnect (code : nat)
| RuntimeError (msg : string).

(** [str(e)] *)
Definition exc_str (e : PyException) : string :=
  match e with
  | HTTPException c d => (Py.str_of_nat c ++ ": " ++ d)%string
  | FileNotFoundError p => p
  | WebSocketDisconnect c => Py.str_of_nat c
  | RuntimeError m => m
  end.

(** A WebSocket object, identified by its address. *)
Definition WebSocket := nat.

(** The events the hub broadcasts. *)
Inductive Message :=
| MsgSync (device_id : string) (lists_count members_count : nat)
          (timestamp : string)
| MsgDataChange (action details timestamp : string).

Record World := mkWorld {
  file : option StoreDocument;                (* data/storage.json *)
  clock : nat -> DateTime;                    (* datetime.now() oracle *)
  ticks : nat;                                (* calls of now() so far *)
  active_connections : list WebSocket;        (* manager.active_connections *)
  connected_devices : Py.dict string;         (* manager.connected_devices *)
  send_outcome : nat -> WebSocket -> Message -> option PyException;
                                              (* transport oracle *)
  sends : nat;                                (* send_json calls so far *)
  wire : list (WebSocket * Message)           (* frames delivered, oldest first *)
}.

Definition set_file (f : option StoreDocument) (w : World) : World :=
  mkWorld f (clock w) (ticks w) (active_connections w) (connected_devices w)
          (send_outcome w) (sends w) (wire w).

Definition set_ticks (n : nat) (w : World) : World :=
  mkWorld (file w) (clock w) n (active_connections w) (connected_devices w)
          (send_outcome w) (sends w) (wire w).

Definition set_active_connections (l : list WebSocket) (w : World) : World :=
  mkWorld (file w) (clock w) (ticks w) l (connected_devices w)
          (send_outcome w) (sends w) (wire w).

Definition set_connected_devices (d : Py.dict string) (w : World) : World :=
  mkWorld (file w) (clock w) (ticks w) (active_connections w) d
          (send_outcome w) (sends w) (wire w).

Definition set_transport (n : nat) (wr : list (WebSocket * Message))
    (w : World) : World :=
  mkWorld (file w) (clock w) (ticks w) (active_connections w)
          (connected_devices w) (send_outcome w) n wr.

Inductive Result (A : Type) :=
| Ok (a : A)
| Raise (e : PyException).
Arguments Ok {A} a.
Arguments Raise {A} e.

Definition M (A : Type) : Type := World -> Result A * World.

Definition ret {A} (a : A) : M A := fun w => (Ok a, w).

Definition raise {A} (e : PyException) : M A := fun w => (Raise e, w).

Definition bind {A B} (m : M A) (k : A -> M B) : M B :=
  fun w =>
    match m w with
    | (Ok a, w') => k a w'
    | (Raise e, w') => (Raise e, w')
    end.

(** [try: m  except Exception as e: h e] *)
Definition try_except {A} (m : M A) (h : PyException -> M A) : M A :=
  fun w =>
    match m w with
    | (Ok a, w') => (Ok a, w')
    | (Raise e, w') => h e w'
    end.

Notation "x <- m ;; k" := (bind m (fun x => k))
  (at level 61, m at next level, right associativity).
Notation "m ;;; k" := (bind m (fun _ => k))
  (at level 61, right associativity).

(** [for x in xs: body x], over a list that the body does not touch. *)
Fixpoint for_each {X} (xs : list X) (body : X -> M unit) : M unit :=
  match xs with
  | [] => ret tt
  | x :: xs' => body x ;;; for_each xs' body
  end.

(** [datetime.now()] *)
Definition now : M DateTime :=
  fun w => (Ok (clock w (ticks w)), set_ticks (S (ticks w)) w).

(* ================================================================== *)
(** * services/storage_service.py *)

Module storage_service.

Definition STORAGE_FILE : string := "data/storage.json".

Definition empty_document : StoreDocument := mkStoreDocument [] [] None.

Definition ensure_storage_exists : M unit :=
  fun w =>
    match file w with
    | None => (Ok tt, set_file (Some empty_document) w)
    | Some _ => (Ok tt, w)
    end.

(** [open(STORAGE_FILE, "r")] followed by [json.load] *)
Definition read_file : M StoreDocument :=
  fun w =>
    match file w with
    | Some d => (Ok d, w)
    | None => (Raise (FileNotFoundError STORAGE_FILE), w)
    end.

(** [open(STORAGE_FILE, "w")] followed by [json.dump] *)
Definition write_file (data : StoreDocument) : M unit :=
  fun w => (Ok tt, set_file (Some data) w).

Definition load_data : M StoreDocument :=
  ensure_storage_exists ;;; read_file.

Definition save_data (data : StoreDocument) : M unit :=
  ensure_storage_exists ;;; write_file data.

Definition get_lists : M (list StoredList) :=
  data <- load_data ;;
  ret (doc_lists data).

Definition save_lists (lists : list StoredList) : M unit :=
  data <- load_data ;;
  t <- now ;;
  save_data (mkStoreDocument lists (doc_logs data) (Some (isoformat t))).

(** The body of the merge loop: stamp the incoming list and store it
    under its id. *)
Definition stamp (device_id : string) (synced_at : string)
    (new_list : StoredList) : StoredList :=
  mkStoredList (l_id new_list) (l_name new_list) (l_members new_list)
               (l_created_at new_list) (l_is_auto_generated new_list)
               (l_isAutoGenerated new_list)
               (Some device_id) (Some synced_at).

(** [{l["id"]: l for l in data.get("lists", [])}] *)
Definition index_by_id (ls : list StoredList) : Py.dict StoredList :=
  fold_left (fun d l => Py.set (l_id l) l d) ls [].

Fixpoint merge_lists (device_id : string) (lists : list StoredList)
    (existing_lists : Py.dict StoredList) : M (Py.dict StoredList) :=
  match lists with
  | [] => ret existing_lists
  | new_list :: rest =>
      t <- now ;;
      let new_list' := stamp device_id (isoformat t) new_list in
      merge_lists device_id rest
                  (Py.set (l_id new_list') new_list' existing_lists)
  end.

Record SyncResult := mkSyncResult {
  synced : nat;
  total : nat;
  sr_timestamp : option string
}.

Definition sync_from_android (device_id : string)
    (lists : list StoredList) : M SyncResult :=
  data <- load_data ;;
  let existing_lists := index_by_id (doc_lists data) in
  existing_lists <- merge_lists device_id lists existing_lists ;;
  t <- now ;;
  let data := mkStoreDocument (Py.values existing_lists) (doc_logs data)
                              (Some (isoformat t)) in
  save_data data ;;;
  ret (mkSyncResult (List.length lists) (List.length (doc_lists data))
                    (doc_last_sync data)).

Definition add_log (action status : string) (details : option string)
    : M LogEntry :=
  data <- load_data ;;
  t1 <- now ;;
  t2 <- now ;;
  let log := mkLogEntry ("log-" ++ timestamp_repr t1)%string (isoformat t2)
                        action status details in
  let logs := doc_logs data in
  let logs := log :: logs in          (* logs.insert(0, log) *)
  let logs := firstn 100 logs in      (* logs[:100] *)
  save_data (mkStoreDocument (doc_lists data) logs (doc_last_sync data)) ;;;
  ret log.

Definition get_logs : M (list LogEntry) :=
  data <- load_data ;;
  ret (doc_logs data).

Definition clear_data : M unit :=
  save_data (mkStoreDocument [] [] None).

End storage_service.

(* ================================================================== *)
(** * main.py: the WebSocket connection manager *)

Module ConnectionManager.

(** [list.remove(x)] on a list that contains [x]: drops the first
    occurrence. *)
Fixpoint list_remove (x : WebSocket) (l : list WebSocket) : list WebSocket :=
  match l with
  | [] => []
  | y :: l' => if Nat.eqb x y then l' else y :: list_remove x l'
  end.

(** [x in l] *)
Definition list_in (x : WebSocket) (l : list WebSocket) : bool :=
  existsb (Nat.eqb x) l.

(** [websocket.send_json(message)]: the transport decides whether this
    call raises; a frame that is sent lands on the wire. *)
Definition send_json (connection : WebSocket) (message : Message) : M unit :=
  fun w =>
    match send_outcome w (sends w) connection message with
    | None =>
        (Ok tt, set_transport (S (sends w))
                              (wire w ++ [(connection, message)]) w)
    | Some e => (Raise e, set_transport (S (sends w)) (wire w) w)
    end.

Definition disconnect (websocket : WebSocket) : M unit :=
  fun w =>
    if list_in websocket (active_connections w)
    then (Ok tt, set_active_connections
                   (list_remove websocket (active_connections w)) w)
    else (Ok tt, w).

(** [connect]: [accept] is what [websocket.accept()] does, [None] when it
    returns and [Some e] when it raises [e]; only an accepted connection
    is appended to the live list. *)
Definition connect (accept : option PyException) (websocket : WebSocket)
    : M unit :=
  fun w =>
    match accept with
    | Some e => (Raise e, w)
    | None =>
        (Ok tt, set_active_connections
                  (active_connections w ++ [websocket]) w)
    end.

(** One pass of the first loop of [broadcast]: the [try]/[except] around
    [send_json], collecting the connection on failure. *)
Definition try_send (connection : WebSocket) (message : Message)
    (disconnected : list WebSocket) : M (list WebSocket) :=
  try_except (send_json connection message ;;; ret disconnected)
             (fun _ => ret (disconnected ++ [connection])).

(** [for connection in self.active_connections], as Python runs it: the
    list iterator keeps an index into the live list object and reads it
    again at every step, stopping when the index reaches the current
    length. [None] when the fuel runs out. *)
Fixpoint sweep_live (fuel i : nat) (message : Message)
    (disconnected : list WebSocket) (w : World)
    : option (Result (list WebSocket) * World) :=
  match fuel with
  | 0 => None
  | S fuel' =>
      match nth_error (active_connections w) i with
      | None => Some (Ok disconnected, w)
      | Some connection =>
          match try_send connection message disconnected w with
          | (Ok disconnected', w') =>
              sweep_live fuel' (S i) message disconnected' w'
          | (Raise e, w') => Some (Raise e, w')
          end
      end
  end.

(** [broadcast] with the first loop run by the list iterator. *)
Definition broadcast_live (fuel : nat) (message : Message) (w : World)
    : option (Result unit * World) :=
  match sweep_live fuel 0 message [] w with
  | None => None
  | Some (Ok disconnected, w') => Some (for_each disconnected disconnect w')
  | Some (Raise e, w') => Some (Raise e, w')
  end.

(** The first loop over the elements the list holds when the loop
    starts. *)
Fixpoint sweep (connections : list WebSocket) (message : Message)
    (disconnected : list WebSocket) : M (list WebSocket) :=
  match connections with
  | [] => ret disconnected
  | connection :: rest =>
      disconnected' <- try_send connection message disconnected ;;
      sweep rest message disconnected'
  end.

Definition broadcast (message : Message) : M unit :=
  fun w =>
    (disconnected <- sweep (active_connections w) message [] ;;
     for_each disconnected disconnect) w.

Definition notify_sync (device_id : string) (lists_count members_count : nat)
    : M unit :=
  t <- now ;;
  (fun w => (Ok tt, set_connected_devices
                      (Py.set device_id (isoformat t) (connected_devices w))
                      w)) ;;;
  t' <- now ;;
  broadcast (MsgSync device_id lists_count members_count (isoformat t')).

Definition notify_data_change (action details : string) : M unit :=
  t <- now ;;
  broadcast (MsgDataChange action details (isoformat t)).

End ConnectionManager.

(* ================================================================== *)
(** * main.py: the REST handlers *)

Module main.

Import storage_service.

Record Response (A : Type) := mkResponse {
  success : bool;
  data : option A;
  message : option string
}.
Arguments mkResponse {A}.
Arguments success {A}.
Arguments data {A}.
Arguments message {A}.

(** [sum(len(l.members) for l in request.lists)] *)
Definition total_members (ls : list BroadcastList) : nat :=
  fold_left (fun acc l => acc + List.length (members l)) ls 0.

Definition sync_from_android (request : SyncRequest)
    : M (Response SyncResult) :=
  try_except
    (result <- storage_service.sync_from_android
                 (device_id request) (map dict_of (lists request)) ;;
     add_log ("Synced " ++ Py.str_of_nat (synced result)
                        ++ " lists from Android")%string
             "success"
             (Some ("Device: " ++ device_id request)%string) ;;;
     let total_members := total_members (lists request) in
     ConnectionManager.notify_sync (device_id request) (synced result)
                                   total_members ;;;
     ret (mkResponse true (Some result) None))
    (fun e =>
       add_log "Android sync failed" "error" (Some (exc_str e)) ;;;
       raise (HTTPException 500 (exc_str e))).

Definition get_lists : M (Response (list StoredList)) :=
  lists <- storage_service.get_lists ;;
  ret (mkResponse true (Some lists) None).

Definition create_list (broadcast_list : BroadcastList)
    : M (Response BroadcastList) :=
  lists <- storage_service.get_lists ;;
  let lists := lists ++ [dict_of broadcast_list] in
  save_lists lists ;;;
  add_log ("Created list '" ++ name broadcast_list ++ "'")%string
          "success"
          (Some (Py.str_of_nat (List.length (members broadcast_list))
                   ++ " members")%string) ;;;
  ConnectionManager.notify_data_change "list_created"
                                       (name broadcast_list) ;;;
  ret (mkResponse true (Some broadcast_list) None).

(** [next((l.get("name") for l in lists if l.get("id") == list_id), None)] *)
Definition first_name_with_id (list_id : string) (lists : list StoredList)
    : option string :=
  match filter (fun l => String.eqb (l_id l) list_id) lists with
  | [] => None
  | l :: _ => Some (l_name l)
  end.

(** [deleted_name or list_id] *)
Definition name_or (deleted_name : option string) (list_id : string)
    : string :=
  match deleted_name with
  | Some n => if Py.truthy n then n else list_id
  | None => list_id
  end.

Definition delete_list (list_id : string) : M (Response unit) :=
  lists <- storage_service.get_lists ;;
  let original_count := List.length lists in
  let deleted_name := first_name_with_id list_id lists in
  let lists := filter (fun l => negb (String.eqb (l_id l) list_id)) lists in
  if List.length lists =? original_count
  then raise (HTTPException 404 "List not found")
  else
    save_lists lists ;;;
    add_log ("Deleted list " ++ list_id)%string "success" None ;;;
    ConnectionManager.notify_data_change "list_deleted"
                                         (name_or deleted_name list_id) ;;;
    ret (mkResponse true None (Some "List deleted")).

(** ** Common members *)

(** Truthiness of [l.get(flag, False)] for a flag that may be missing. *)
Definition flag (b : option bool) : bool :=
  match b with Some v => v | None => false end.

(** The filter of the comprehension that builds [source_lists]. *)
Definition is_source (l : StoredList) : bool :=
  negb (l_is_auto_generated l) && negb (flag (l_isAutoGenerated l)).

(** The key under which a member is counted. *)
Definition member_key (member : Contact) : string :=
  let phone := c_phone member in
  let name := c_name member in
  if Py.truthy phone
  then Py.last_chars 10 phone
  else Py.strip (Py.lower name).

(** A value of [member_counts]. *)
Record Info := mkInfo {
  member : Contact;
  count : nat;
  in_lists : list string
}.

(** The body of the inner loop, for one member of the list [lst]. *)
Definition count_member (lst : StoredList) (member_counts : Py.dict Info)
    (member : Contact) : Py.dict Info :=
  let key := member_key member in
  if Py.truthy key then
    let member_counts :=
      if negb (Py.mem key member_counts)
      then Py.set key (mkInfo member 0 []) member_counts
      else member_counts in
    match Py.get key member_counts with
    | Some info =>
        Py.set key (mkInfo (main.member info) (S (count info))
                           (in_lists info ++ [l_name lst]))
               member_counts
    | None => member_counts
    end
  else member_counts.

(** The two nested loops. *)
Definition count_members (source_lists : list StoredList) : Py.dict Info :=
  fold_left (fun member_counts lst =>
               fold_left (count_member lst) (l_members lst) member_counts)
            source_lists [].

(** An element of [common_members]: the member's own keys, then
    [appears_in] and [list_names]. *)
Record CommonMember := mkCommonMember {
  cm_member : Contact;
  appears_in : nat;
  list_names : list string
}.

(** [common_members.sort(key=lambda x: x["appears_in"], reverse=True)]:
    Python's sort is stable, also with [reverse=True]; the stable sorted
    arrangement of a list is unique, and insertion from the right
    computes it. *)
Fixpoint insert_desc (x : CommonMember) (l : list CommonMember)
    : list CommonMember :=
  match l with
  | [] => [x]
  | y :: l' =>
      if appears_in x <? appears_in y
      then y :: insert_desc x l'
      else x :: y :: l'
  end.

Definition sort_desc (l : list CommonMember) : list CommonMember :=
  fold_right insert_desc [] l.

Record CommonMembersData := mkCommonMembersData {
  common_members : list CommonMember;
  source_lists_count : nat;
  total_common : option nat;
  cm_message : option string
}.

Section WithSetOrder.
Context {order : Py.SetOrder}.

(** The comprehension that builds [common_members]. *)
Definition common_of (member_counts : Py.dict Info) : list CommonMember :=
  map (fun kv =>
         let info := snd kv in
         mkCommonMember (member info) (count info)
                        (Py.list_of_set (in_lists info)))
      (filter (fun kv => 2 <=? count (snd kv)) member_counts).

Definition find_common_members (lists : list StoredList)
    : Response CommonMembersData :=
  let source_lists := filter is_source lists in
  if List.length source_lists <? 2 then
    mkResponse true
      (Some (mkCommonMembersData [] (List.length source_lists) None
               (Some "Need at least 2 lists to find common members")))
      None
  else
    let member_counts := count_members source_lists in
    let common_members := common_of member_counts in
    let common_members := sort_desc common_members in
    mkResponse true
      (Some (mkCommonMembersData common_members
               (List.length source_lists)
               (Some (List.length common_members)) None))
      None.

Definition get_common_members : M (Response CommonMembersData) :=
  lists <- storage_service.get_lists ;;
  ret (find_common_members lists).

End WithSetOrder.

Definition get_logs : M (Response (list LogEntry)) :=
  logs <- storage_service.get_logs ;;
  ret (mkResponse true (Some logs) None).

Definition clear_logs : M (Response unit) :=
  add_log "Logs cleared" "success" None ;;;
  ret (mkResponse true None (Some "Logs cleared")).

End main.

(* ================================================================== *)
(** * Observations on a world *)

(** The document a reader sees: a missing file reads as the empty
    document, which is what [load_data] returns after creating it. *)
Definition doc_of (f : option StoreDocument) : StoreDocument :=
  match f with
  | Some d => d
  | None => storage_service.empty_document
  end.

Definition document (w : World) : StoreDocument := doc_of (file w).

Definition stored_lists (w : World) : list StoredList := doc_lists (document w).
Definition stored_logs (w : World) : list LogEntry := doc_logs (document w).

(** Everything outside the JSON file and the clock is left alone. *)
Definition same_hub (w w' : World) : Prop :=
  active_connections w' = active_connections w /\
  connected_devices w' = connected_devices w /\
  send_outcome w' = send_outcome w /\
  sends w' = sends w /\
  wire w' = wire w.

(** A run of [add_log] calls, one per (action, status, details). *)
Fixpoint add_logs (batch : list (string * string * option string))
    : M (list LogEntry) :=
  match batch with
  | [] => ret []
  | (action, status, details) :: rest =>
      log <- storage_service.add_log action status details ;;
      logs <- add_logs rest ;;
      ret (log :: logs)
  end.

Definition entry_fields (l : LogEntry) : string * string * option string :=
  (log_action l, log_status l, log_details l).

(** The entry [add_log] builds when the clock has been read [t] times. *)
Definition new_log (clk : nat -> DateTime) (t : nat)
    (action status : string) (details : option string) : LogEntry :=
  mkLogEntry ("log-" ++ timestamp_repr (clk t))%string
             (isoformat (clk (S t))) action status details.

(** The ids of the stored lists are pairwise distinct. *)
Definition unique_ids (w : World) : Prop := NoDup (map l_id (stored_lists w)).

(** The stored lists that carry a given id. *)
Definition with_id (list_id : string) (ls : list StoredList) : list StoredList :=
  filter (fun l => String.eqb (l_id l) list_id) ls.

(** ** Example data *)

(** A clock that renders its k-th reading as the number k. *)
Definition counting_clock (k : nat) : DateTime :=
  mkDateTime (Py.str_of_nat k) (Py.str_of_nat k).

(** A transport on which the connections listed in [closed] raise. *)
Definition closed_raise (closed : list WebSocket)
    (k : nat) (ws : WebSocket) (m : Message) : option PyException :=
  if existsb (Nat.eqb ws) closed then Some (WebSocketDisconnect 1006) else None.

(** A freshly started process: no file yet, nobody connected. *)
Definition fresh_world : World :=
  mkWorld None counting_clock 0 [] [] (closed_raise []) 0 [].

(** A world whose file holds [d]. *)
Definition world_with (d : StoreDocument) : World :=
  mkWorld (Some d) counting_clock 0 [] [] (closed_raise []) 0 [].

(** The entries a run of [add_log] calls builds, oldest first, when the
    clock has been read [t] times at its start. *)
Fixpoint new_logs (clk : nat -> DateTime) (t : nat)
    (batch : list (string * string * option string)) : list LogEntry :=
  match batch with
  | [] => []
  | (action, status, details) :: rest =>
      new_log clk t action status details :: new_logs clk (S (S t)) rest
  end.

(** A stored document with one older log entry. *)
Definition one_old_entry : StoreDocument :=
  mkStoreDocument []
    [mkLogEntry "log-0" "2024-01-01T00:00:00" "Synced 1 lists from Android"
                "success" (Some "Device: A")]
    None.

(** One admissible enumeration order: first occurrence first. *)
Definition first_seen_order : Py.SetOrder :=
  {| Py.list_of_set := nodup string_dec;
     Py.list_of_set_NoDup := NoDup_nodup string_dec;
     Py.list_of_set_In := nodup_In string_dec |}.

(** A user list, and a list materialised by the system. *)
Definition team_list : StoredList :=
  mkStoredList "L1" "Team" [mkContact "1" "Bob" "5551234567" None]
               "2024-01-01 00:00:00" false None (Some "A") (Some "0").

Definition generated_list : StoredList :=
  mkStoredList "G1" "Common" [mkContact "1" "Bob" "5551234567" None]
               "2024-01-01 00:00:00" false (Some true) None None.

(** The dictionary the merge loop leaves, when the clock has been read
    [t] times at its start: the loop reads the clock once per incoming
    list. *)
Fixpoint merged (clk : nat -> DateTime) (t : nat) (device_id : string)
    (lists : list StoredList) (existing_lists : Py.dict StoredList)
    : Py.dict StoredList :=
  match lists with
  | [] => existing_lists
  | new_list :: rest =>
      merged clk (S t) device_id rest
             (Py.set (l_id new_list)
                     (storage_service.stamp device_id (isoformat (clk t))
                                            new_list)
                     existing_lists)
  end.

(** Every value of the dictionary sits under its own id. *)
Definition keyed (d : Py.dict StoredList) : Prop :=
  Forall (fun kv => l_id (snd kv) = fst kv) d.

(** Two versions of the list "L1", as two devices might send it. *)
Definition team_v1 : StoredList :=
  mkStoredList "L1" "Team" [mkContact "1" "Bob" "5551234567" None]
               "2024-01-01 00:00:00" false None None None.

Definition team_v2 : StoredList :=
  mkStoredList "L1" "Team (renamed)"
               [mkContact "1" "Bob" "5551234567" None;
                mkContact "2" "Eve" "5550000000" None]
               "2024-02-02 00:00:00" false None None None.

(** ** The outcome of one sweep, read off the transport oracle

    The connections of [cs] are served in order, the first one by the
    [k]-th [send_json] call. [survivors] are those whose call returns,
    [casualties] those whose call raises. *)
Fixpoint survivors (oracle : nat -> WebSocket -> Message -> option PyException)
    (k : nat) (message : Message) (cs : list WebSocket) : list WebSocket :=
  match cs with
  | [] => []
  | c :: rest =>
      match oracle k c message with
      | None => c :: survivors oracle (S k) message rest
      | Some _ => survivors oracle (S k) message rest
      end
  end.

Fixpoint casualties (oracle : nat -> WebSocket -> Message -> option PyException)
    (k : nat) (message : Message) (cs : list WebSocket) : list WebSocket :=
  match cs with
  | [] => []
  | c :: rest =>
      match oracle k c message with
      | None => casualties oracle (S k) message rest
      | Some _ => c :: casualties oracle (S k) message rest
      end
  end.

(** What the clean-up loop of [broadcast] leaves of the live list. *)
Definition remove_all (disconnected live : list WebSocket) : list WebSocket :=
  fold_left (fun l x => if ConnectionManager.list_in x l
                        then ConnectionManager.list_remove x l else l)
            disconnected live.

(** Three subscribers, the second on a closed connection. *)
Definition three_subscribers : World :=
  mkWorld None counting_clock 0 [1; 2; 3] [] (closed_raise [2]) 0 [].

Definition list_created : Message :=
  MsgDataChange "list_created" "Team" "2024-01-01T00:00:00".

(** ** The handlers that change the stored lists *)

Inductive Call :=
| Sync (request : SyncRequest)
| Create (broadcast_list : BroadcastList)
| Delete (list_id : string).

(** The world a call leaves, whether it returns or raises. *)
Definition after (c : Call) (w : World) : World :=
  match c with
  | Sync request => snd (main.sync_from_android request w)
  | Create broadcast_list => snd (main.create_list broadcast_list w)
  | Delete list_id => snd (main.delete_list list_id w)
  end.

(** A [Create] brings an id that the store does not hold yet. *)
Definition brings_new_id (c : Call) (w : World) : Prop :=
  match c with
  | Create broadcast_list =>
      ~ In (id broadcast_list) (map l_id (stored_lists w))
  | _ => True
  end.

(** The worlds reached from a store without file by calls that bring new
    ids when they create. *)
Inductive reachable : World -> Prop :=
| reach_start w : file w = None -> reachable w
| reach_call w c : reachable w -> brings_new_id c w -> reachable (after c w).

Definition team_request : BroadcastList :=
  mkBroadcastList "L1" "Team" [mkContact "1" "Bob" "5551234567" None]
                  "2024-01-01 00:00:00" false.

Definition friends_request : BroadcastList :=
  mkBroadcastList "L2" "Friends" [mkContact "2" "Bob" "+15551234567" None]
                  "2024-01-01 00:00:00" false.

(** ** What the aggregator counts

    An occurrence is a member of a source list whose key is not empty,
    with the name of the list it sits in. *)
Definition occurrences_in (lst : StoredList) (ms : list Contact)
    : list (Contact * string) :=
  map (fun m => (m, l_name lst))
      (filter (fun m => Py.truthy (main.member_key m)) ms).

Definition occurrences (source_lists : list StoredList)
    : list (Contact * string) :=
  flat_map (fun lst => occurrences_in lst (l_members lst)) source_lists.

(** The occurrences of the key [k], in the order the loops meet them. *)
Definition tally (k : string) (occs : list (Contact * string))
    : list (Contact * string) :=
  filter (fun o => String.eqb (main.member_key (fst o)) k) occs.

Definition occurrence_count (k : string) (source_lists : list StoredList)
    : nat :=
  List.length (tally k (occurrences source_lists)).

(** The key of an emitted common member. *)
Definition emitted_key (cm : main.CommonMember) : string :=
  main.member_key (main.cm_member cm).

(** How one occurrence changes the value stored under its key. *)
Definition bump (o : option main.Info) (occ : Contact * string)
    : option main.Info :=
  Some match o with
       | Some info =>
           main.mkInfo (main.member info) (S (main.count info))
                       (main.in_lists info ++ [snd occ])
       | None => main.mkInfo (fst occ) 1 [snd occ]
       end.

(** The value stored under a key once all its occurrences are counted. *)
Definition counted (t : list (Contact * string)) : option main.Info :=
  match t with
  | [] => None
  | occ :: _ => Some (main.mkInfo (fst occ) (List.length t) (map snd t))
  end.

(** [appears_in] does not increase along the list. *)
Definition descending (a b : main.CommonMember) : Prop :=
  main.appears_in b <= main.appears_in a.

(** ** Example stores for the aggregator *)

Definition bob (phone : string) : Contact := mkContact "1" "Bob" phone None.

Definition source_list (list_id list_name : string) (ms : list Contact)
    : StoredList :=
  mkStoredList list_id list_name ms "2024-01-01 00:00:00" false None
               (Some "A") (Some "0").

(** The same number, once without and once with a country code. *)
Definition prefixed_phones : list StoredList :=
  [source_list "L1" "Team" [bob "5551234567"];
   source_list "L2" "Friends" [bob "+15551234567"]].

(** The same number, once formatted with dashes. *)
Definition formatted_phones : list StoredList :=
  [source_list "L1" "Team" [bob "+1-555-123-4567"];
   source_list "L2" "Friends" [bob "5551234567"]].

(** One list that holds the same number twice, and an unrelated list. *)
Definition repeated_in_one_list : list StoredList :=
  [source_list "L1" "Team" [bob "5551234567"; bob "+15551234567"];
   source_list "L2" "Friends" [mkContact "3" "Carol" "5559999999" None]].

(** The source lists that hold a member with the key [k]. *)
Definition lists_holding (k : string) (source_lists : list StoredList)
    : list StoredList :=
  filter (fun lst =>
            existsb (fun m => String.eqb (main.member_key m) k)
                    (l_members lst))
         source_lists.

(* ================================================================== *)
(** * services/gemini_service.py: cutting the JSON object out of a reply *)

Module gemini_service.

(** Index of the first [c] in [s]. *)
Fixpoint first_index (c : ascii) (s : string) : option nat :=
  match s with
  | EmptyString => None
  | String c' s' =>
      if Ascii.eqb c' c then Some 0 else option_map S (first_index c s')
  end.

(** Index of the last [c] in [s]. *)
Fixpoint last_index (c : ascii) (s : string) : option nat :=
  match s with
  | EmptyString => None
  | String c' s' =>
      match last_index c s' with
      | Some i => Some (S i)
      | None => if Ascii.eqb c' c then Some 0 else None
      end
  end.

(** [s.find(c)] and [s.rfind(c)] for a one-character [c]: the index, or
    [-1] when [c] does not occur. *)
Definition find (c : ascii) (s : string) : Z :=
  match first_index c s with
  | Some i => Z.of_nat i
  | None => (-1)%Z
  end.

Definition rfind (c : ascii) (s : string) : Z :=
  match last_index c s with
  | Some i => Z.of_nat i
  | None => (-1)%Z
  end.

(** A slice bound as Python adjusts it: a negative bound counts from the
    end, and the result is clipped to [0 .. len]. *)
Definition adjust (len : nat) (i : Z) : nat :=
  if (i <? 0)%Z
  then Z.to_nat (Z.max (i + Z.of_nat len) 0)
  else Nat.min (Z.to_nat i) len.

(** [s[a:b]] *)
Definition slice (a b : Z) (s : string) : string :=
  let len := String.length s in
  let start := adjust len a in
  let stop := adjust len b in
  if stop <=? start then EmptyString else substring start (stop - start) s.

(** [text[text.find("{"):text.rfind("}")+1]], the expression the three
    functions share. *)
Definition json_match (text : string) : string :=
  slice (find "{" text) (rfind "}" text + 1)%Z text.

End gemini_service.

(** [c] occurs in [s]. *)
Fixpoint occurs (c : ascii) (s : string) : bool :=
  match s with
  | EmptyString => false
  | String c' s' => Ascii.eqb c' c || occurs c s'
  end.

(** Every character of [s] is white space. *)
Fixpoint blank (s : string) : bool :=
  match s with
  | EmptyString => true
  | String c s' => Py.is_space c && blank s'
  end.

(** ** Keys in the order they are first met *)

Definition note (k : string) (seen : list string) : list string :=
  if existsb (String.eqb k) seen then seen else seen ++ [k].

Definition first_seen_from (seen ks : list string) : list string :=
  fold_left (fun seen k => note k seen) ks seen.

Definition first_seen (ks : list string) : list string := first_seen_from [] ks.

(** The last element of a list, as a list of at most one element. *)
Definition last_only {A} (l : list A) : list A :=
  match rev l with
  | [] => []
  | x :: _ => [x]
  end.

(** The [data_change] event a handler broadcasts. *)
Definition data_change (action details : string) (at_time : DateTime) : Message :=
  MsgDataChange action details (isoformat at_time).

(** A store with the lists "L1" and "L2" and two subscribers, the second
    on a closed connection. *)
Definition busy_world : World :=
  mkWorld (Some (mkStoreDocument
                   [source_list "L1" "Team" [bob "5551234567"];
                    source_list "L2" "Friends" [bob "+15551234567"]]
                   [] None))
          counting_clock 0 [7; 8] [] (closed_raise [8]) 0 [].

(** The stored list [lst] with other members. *)
Definition with_members (lst : StoredList) (ms : list Contact) : StoredList :=
  mkStoredList (l_id lst) (l_name lst) ms (l_created_at lst)
               (l_is_auto_generated lst) (l_isAutoGenerated lst)
               (l_synced_from lst) (l_synced_at lst).

(* ================================================================== *)
(** * main.py: the WebSocket endpoint

    One run of [websocket_endpoint] for one connection. The frames the
    client sends are the texts of [inbox], in order; after the last one
    [receive_text] raises [ending]. What [json.loads] makes of a text is
    given by [json_loads], as far as the handler looks at the value. The
    endpoint answers on its own connection; [reply_outcome] tells whether
    the k-th of these [send_json] calls raises. *)

(** The value of [json.loads(data)], or its failure. *)
Inductive Parsed :=
| NotJson                                 (* json.JSONDecodeError *)
| JsonObject (type_field : option string) (* a dict; [message.get("type")]
                                             when it is a string *)
| JsonOther.                              (* a list, string, number, bool
                                             or null: no [.get] *)

(** The frames the endpoint sends to its own connection. *)
Inductive Reply :=
| Init (lists_count members_count : nat) (connected_devices : list string)
       (timestamp : string)
| Pong
| Data (lists : list StoredList) (timestamp : string).

(** How a run of the endpoint ends. *)
Inductive Ended :=
| Returned
| Escaped (e : PyException)
| EscapedAttributeError.

Record Session := mkSession {
  world : World;
  replies : list Reply;                      (* frames delivered, oldest first *)
  reply_outcome : nat -> Reply -> option PyException;
  reply_calls : nat                          (* send_json calls so far *)
}.

Definition set_world (w : World) (s : Session) : Session :=
  mkSession w (replies s) (reply_outcome s) (reply_calls s).

(** A computation on the world, run inside a session. *)
Definition in_world {A} (m : M A) (s : Session) : Result A * Session :=
  match m (world s) with
  | (r, w') => (r, set_world w' s)
  end.

(** [websocket.send_json(reply)] *)
Definition send_reply (r : Reply) (s : Session) : Result unit * Session :=
  match reply_outcome s (reply_calls s) r with
  | None =>
      (Ok tt, mkSession (world s) (replies s ++ [r]) (reply_outcome s)
                        (S (reply_calls s)))
  | Some e =>
      (Raise e, mkSession (world s) (replies s) (reply_outcome s)
                          (S (reply_calls s)))
  end.

(** [sum(len(l.get("members", [])) for l in lists)] *)
Definition members_total (ls : list StoredList) : nat :=
  fold_left (fun acc l => acc + List.length (l_members l)) ls 0.

(** [message.get("type") == name] *)
Definition type_is (type_field : option string) (name : string) : bool :=
  match type_field with
  | Some t => String.eqb t name
  | None => false
  end.

(** The first [try] block: the [init] frame; any exception is printed and
    dropped. *)
Definition send_init (s : Session) : Session :=
  match in_world storage_service.get_lists s with
  | (Ok lists, s1) =>
      match in_world now s1 with
      | (Ok t, s2) =>
          snd (send_reply
                 (Init (List.length lists) (members_total lists)
                       (Py.keys (connected_devices (world s2)))
                       (isoformat t))
                 s2)
      | (Raise _, s2) => s2
      end
  | (Raise _, s1) => s1
  end.

(** An exception inside the [while] loop: [WebSocketDisconnect] is caught
    and the connection is removed, anything else leaves the endpoint. *)
Definition leave (e : PyException) (websocket : WebSocket) (s : Session)
    : Ended * Session :=
  match e with
  | WebSocketDisconnect _ =>
      (Returned, snd (in_world (ConnectionManager.disconnect websocket) s))
  | _ => (Escaped e, s)
  end.

(** The [while True] loop. *)
Fixpoint serve (json_loads : string -> Parsed) (websocket : WebSocket)
    (inbox : list string) (ending : PyException) (s : Session)
    : Ended * Session :=
  match inbox with
  | [] => leave ending websocket s
  | data :: rest =>
      match json_loads data with
      | NotJson => serve json_loads websocket rest ending s
      | JsonOther => (EscapedAttributeError, s)
      | JsonObject type_field =>
          if type_is type_field "ping" then
            match send_reply Pong s with
            | (Ok _, s1) => serve json_loads websocket rest ending s1
            | (Raise e, s1) => leave e websocket s1
            end
          else if type_is type_field "refresh" then
            match in_world storage_service.get_lists s with
            | (Ok lists, s1) =>
                match in_world now s1 with
                | (Ok t, s2) =>
                    match send_reply (Data lists (isoformat t)) s2 with
                    | (Ok _, s3) => serve json_loads websocket rest ending s3
                    | (Raise e, s3) => leave e websocket s3
                    end
                | (Raise e, s2) => leave e websocket s2
                end
            | (Raise e, s1) => leave e websocket s1
            end
          else serve json_loads websocket rest ending s
      end
  end.

Definition websocket_endpoint (json_loads : string -> Parsed)
    (accept : option PyException) (websocket : WebSocket)
    (inbox : list string) (ending : PyException) (s : Session)
    : Ended * Session :=
  match in_world (ConnectionManager.connect accept websocket) s with
  | (Raise e, s1) => (Escaped e, s1)
  | (Ok _, s1) => serve json_loads websocket inbox ending (send_init s1)
  end.

(** ** What a session is expected to show *)

(** The frame makes the handler do something. *)
Definition relevant (json_loads : string -> Parsed) (data : string) : bool :=
  match json_loads data with
  | NotJson => false
  | JsonOther => true
  | JsonObject type_field =>
      type_is type_field "ping" || type_is type_field "refresh"
  end.

Definition is_object_or_garbage (json_loads : string -> Parsed)
    (data : string) : bool :=
  match json_loads data with
  | JsonOther => false
  | _ => true
  end.

(** The answers to the frames of [inbox] when every send returns: a
    [Pong] per ping and the stored lists per refresh, stamped with
    successive clock readings from the [t]-th on. *)
Fixpoint answers (json_loads : string -> Parsed) (clk : nat -> DateTime)
    (t : nat) (stored : list StoredList) (inbox : list string) : list Reply :=
  match inbox with
  | [] => []
  | data :: rest =>
      match json_loads data with
      | JsonObject type_field =>
          if type_is type_field "ping"
          then Pong :: answers json_loads clk t stored rest
          else if type_is type_field "refresh"
          then Data stored (isoformat (clk t))
                 :: answers json_loads clk (S t) stored rest
          else answers json_loads clk t stored rest
      | _ => answers json_loads clk t stored rest
      end
  end.

(** [s] between double quotes. *)
Definition quoted (s : string) : string :=
  (String (ascii_of_nat 34) s ++ String (ascii_of_nat 34) EmptyString)%string.

(** The JSON text of an object with the one key [type]. *)
Definition typed_frame (t : string) : string :=
  ("{" ++ quoted "type" ++ ": " ++ quoted t ++ "}")%string.

(** A parser for the examples: the texts a test client sends. *)
Definition toy_json_loads (data : string) : Parsed :=
  if String.eqb data (typed_frame "ping") then JsonObject (Some "ping")
  else if String.eqb data (typed_frame "refresh")
       then JsonObject (Some "refresh")
  else if String.eqb data "{}" then JsonObject None
  else if String.eqb data "[]" then JsonOther
  else NotJson.

(** A session on [busy_world] whose direct sends all return. *)
Definition quiet_session : Session :=
  mkSession busy_world [] (fun _ _ => None) 0.

(** What no step of the endpoint changes. *)
Definition steady (s s' : Session) : Prop :=
  document (world s') = document (world s) /\
  connected_devices (world s') = connected_devices (world s) /\
  wire (world s') = wire (world s) /\
  sends (world s') = sends (world s) /\
  (forall c, In c (active_connections (world s')) ->
             In c (active_connections (world s))).

(* ================================================================== *)
(** * Storage service: how each function runs *)

(** Reduce the setters and projections of an explicit world. *)
Ltac world_simpl :=
  unfold set_file, set_ticks, set_active_connections, set_connected_devices,
         set_transport;
  cbn [file clock ticks active_connections connected_devices send_outcome
       sends wire fst snd].

Section StorageRuns.
Import storage_service.

Variables (f : option StoreDocument) (clk : nat -> DateTime) (t : nat)
          (conns : list WebSocket) (devs : Py.dict string)
          (oracle : nat -> WebSocket -> Message -> option PyException)
          (n : nat) (wr : list (WebSocket * Message)).

Lemma load_data_run :
  load_data (mkWorld f clk t conns devs oracle n wr)
  = (Ok (doc_of f), mkWorld (Some (doc_of f)) clk t conns devs oracle n wr).
Proof. destruct f; reflexivity. Qed.

Lemma save_data_run (d : StoreDocument) :
  save_data d (mkWorld f clk t conns devs oracle n wr)
  = (Ok tt, mkWorld (Some d) clk t conns devs oracle n wr).
Proof. destruct f; reflexivity. Qed.

Lemma get_lists_run :
  storage_service.get_lists (mkWorld f clk t conns devs oracle n wr)
  = (Ok (doc_lists (doc_of f)),
     mkWorld (Some (doc_of f)) clk t conns devs oracle n wr).
Proof. destruct f; reflexivity. Qed.

Lemma get_logs_run :
  storage_service.get_logs (mkWorld f clk t conns devs oracle n wr)
  = (Ok (doc_logs (doc_of f)),
     mkWorld (Some (doc_of f)) clk t conns devs oracle n wr).
Proof. destruct f; reflexivity. Qed.

Lemma save_lists_run (ls : list StoredList) :
  save_lists ls (mkWorld f clk t conns devs oracle n wr)
  = (Ok tt,
     mkWorld (Some (mkStoreDocument ls (doc_logs (doc_of f))
                                    (Some (isoformat (clk t)))))
             clk (S t) conns devs oracle n wr).
Proof. destruct f; reflexivity. Qed.

Lemma add_log_run (action status : string) (details : option string) :
  add_log action status details (mkWorld f clk t conns devs oracle n wr)
  = (Ok (new_log clk t action status details),
     mkWorld (Some (mkStoreDocument
                      (doc_lists (doc_of f))
                      (firstn 100 (new_log clk t action status details
                                     :: doc_logs (doc_of f)))
                      (doc_last_sync (doc_of f))))
             clk (S (S t)) conns devs oracle n wr).
Proof. destruct f; reflexivity. Qed.

End StorageRuns.

(* ================================================================== *)
(** * The log buffer *)

Lemma firstn_app_firstn {A} (a b : list A) :
  forall k m, k <= List.length a + m ->
    firstn k (a ++ firstn m b) = firstn k (a ++ b).
Proof.
  induction a as [|x a IH]; intros k m Hk; simpl in *.
  - rewrite firstn_firstn. now rewrite Nat.min_l by lia.
  - destruct k as [|k]; [reflexivity|].
    simpl. f_equal. apply IH. lia.
Qed.

Lemma new_logs_fields clk batch :
  forall t, map entry_fields (new_logs clk t batch) = batch.
Proof.
  induction batch as [|[[a s] d] rest IH]; intros t; simpl.
  - reflexivity.
  - now rewrite IH.
Qed.

Lemma new_logs_length clk batch :
  forall t, List.length (new_logs clk t batch) = List.length batch.
Proof.
  intros t. rewrite <- (new_logs_fields clk batch t) at 2.
  now rewrite length_map.
Qed.

Lemma add_logs_run clk conns devs oracle n wr batch :
  forall f t,
    add_logs batch (mkWorld f clk t conns devs oracle n wr)
    = (Ok (new_logs clk t batch),
       mkWorld
         (match batch with
          | [] => f
          | _ => Some (mkStoreDocument
                         (doc_lists (doc_of f))
                         (firstn 100 (rev (new_logs clk t batch)
                                        ++ doc_logs (doc_of f)))
                         (doc_last_sync (doc_of f)))
          end)
         clk (t + 2 * List.length batch) conns devs oracle n wr).
Proof.
  induction batch as [|[[a s] d] rest IH]; intros f t.
  - simpl. now rewrite Nat.add_0_r.
  - cbn [add_logs]. unfold bind at 1. rewrite add_log_run.
    unfold bind at 1. rewrite IH. unfold ret.
    replace (S (S t) + 2 * List.length rest)
      with (t + 2 * List.length ((a, s, d) :: rest)) by (simpl; lia).
    destruct rest as [|r rest'].
    + reflexivity.
    + cbn [doc_of doc_lists doc_logs doc_last_sync].
      rewrite firstn_app_firstn by lia.
      cbn [new_logs rev]. now rewrite <- !app_assoc.
Qed.

(** C4. Every [add_log] puts the new entry at the front of the log and
    keeps at most 100 entries, so the length becomes
    [min (old + 1) 100] and, at the ceiling, the oldest entry is dropped;
    after a run of 100 or more calls the log is exactly the 100 newest
    entries, newest first. *)
Theorem add_log_ring_buffer :
  (forall w action status details,
     exists log w',
       storage_service.add_log action status details w = (Ok log, w') /\
       entry_fields log = (action, status, details) /\
       stored_logs w' = log :: firstn 99 (stored_logs w) /\
       hd_error (stored_logs w') = Some log /\
       List.length (stored_logs w')
       = Nat.min (List.length (stored_logs w) + 1) 100) /\
  (forall w batch,
     100 <= List.length batch ->
     exists logs w',
       add_logs batch w = (Ok logs, w') /\
       map entry_fields logs = batch /\
       stored_logs w' = firstn 100 (rev logs) /\
       List.length (stored_logs w') = 100).
Proof.
  split.
  - intros [f clk t conns devs oracle n wr] action status details.
    rewrite add_log_run.
    eexists; eexists; split; [reflexivity|].
    unfold stored_logs, document; cbn [file doc_of doc_logs].
    rewrite firstn_cons.
    split; [reflexivity|]. split; [reflexivity|]. split; [reflexivity|].
    cbn [List.length]. rewrite length_firstn. lia.
  - intros [f clk t conns devs oracle n wr] batch Hlen.
    rewrite add_logs_run.
    eexists; eexists; split; [reflexivity|].
    split; [apply new_logs_fields|].
    destruct batch as [|b batch']; [simpl in Hlen; lia|].
    unfold stored_logs, document.
    cbn [file doc_of doc_logs].
    assert (Hr : 100 <= List.length (rev (new_logs clk t (b :: batch')))).
    { now rewrite length_rev, new_logs_length. }
    rewrite firstn_app.
    replace (100 - List.length (rev (new_logs clk t (b :: batch')))) with 0
      by lia.
    rewrite firstn_O, app_nil_r.
    split; [reflexivity|].
    rewrite length_firstn. lia.
Qed.

Lemma add_log_ring_buffer_witness :
  exists logs w',
    add_logs (repeat ("Synced 1 lists from Android", "success", None) 101)
             fresh_world = (Ok logs, w') /\
    map entry_fields logs
    = repeat ("Synced 1 lists from Android", "success", None) 101 /\
    stored_logs w' = firstn 100 (rev logs) /\
    List.length (stored_logs w') = 100.
Proof.
  apply (proj2 add_log_ring_buffer fresh_world).
  rewrite repeat_length. lia.
Defined.

(* ================================================================== *)
(** * Clearing the log *)

(** C7. [clear_logs] only calls [add_log]: the entry "Logs cleared" goes
    to the front and every earlier entry (up to the ceiling) stays. With
    one entry in the log before the call there are two after it. *)
Theorem clear_logs_keeps_history :
  (forall w,
     exists resp log w',
       main.clear_logs w = (Ok resp, w') /\
       entry_fields log = ("Logs cleared", "success", None) /\
       stored_logs w' = log :: firstn 99 (stored_logs w)) /\
  (exists resp log w',
     main.clear_logs (world_with one_old_entry) = (Ok resp, w') /\
     entry_fields log = ("Logs cleared", "success", None) /\
     stored_logs w' = log :: doc_logs one_old_entry /\
     List.length (stored_logs w') = 2).
Proof.
  split.
  - intros [f clk t conns devs oracle n wr].
    unfold main.clear_logs, bind. rewrite add_log_run. unfold ret.
    eexists. exists (new_log clk t "Logs cleared" "success" None).
    eexists. split; [reflexivity|].
    split; [reflexivity|].
    unfold stored_logs, document; cbn [file doc_of doc_logs].
    now rewrite firstn_cons.
  - eexists. exists (new_log counting_clock 0 "Logs cleared" "success" None).
    eexists. split; [reflexivity|].
    split; [reflexivity|]. split; reflexivity.
Qed.

(* ================================================================== *)
(** * Deleting a list that is not there *)

Lemma filter_other_ids (list_id : string) (ls : list StoredList) :
  ~ In list_id (map l_id ls) ->
  filter (fun l => negb (String.eqb (l_id l) list_id)) ls = ls.
Proof.
  induction ls as [|l ls IH]; intros Hnot; simpl in *.
  - reflexivity.
  - destruct (String.eqb_spec (l_id l) list_id) as [E|E].
    + exfalso. apply Hnot. now left.
    + simpl. f_equal. apply IH. intros H. apply Hnot. now right.
Qed.

(** C8. Deleting an id that no stored list carries raises the 404
    [HTTPException] "List not found"; the document read afterwards is the
    document read before (so the list count is the same), a file that
    existed is untouched, and neither the clock nor the hub is used. *)
Theorem delete_list_not_found (w : World) (list_id : string) :
  ~ In list_id (map l_id (stored_lists w)) ->
  exists w',
    main.delete_list list_id w
    = (Raise (HTTPException 404 "List not found"), w') /\
    document w' = document w /\
    List.length (stored_lists w') = List.length (stored_lists w) /\
    (forall d, file w = Some d -> file w' = Some d) /\
    ticks w' = ticks w /\
    same_hub w w'.
Proof.
  destruct w as [f clk t conns devs oracle n wr].
  unfold stored_lists, document; cbn [file].
  intros Hnot.
  unfold main.delete_list, bind. rewrite get_lists_run.
  rewrite (filter_other_ids _ _ Hnot), Nat.eqb_refl.
  eexists; split; [reflexivity|].
  unfold same_hub; cbn.
  repeat split.
  intros d ->. reflexivity.
Qed.

Lemma delete_list_not_found_witness :
  exists w',
    main.delete_list "L9" (world_with (mkStoreDocument [team_list] [] None))
    = (Raise (HTTPException 404 "List not found"), w') /\
    document w' = document (world_with (mkStoreDocument [team_list] [] None)) /\
    List.length (stored_lists w') = 1.
Proof.
  destruct (delete_list_not_found
              (world_with (mkStoreDocument [team_list] [] None)) "L9")
    as [w' [Hrun [Hdoc [Hlen _]]]].
  - simpl. intros [H|[]]. discriminate H.
  - exists w'. split; [exact Hrun|]. split; [exact Hdoc|exact Hlen].
Defined.

(* ================================================================== *)
(** * Too few source lists *)

(** C6. A list is left out of the sources exactly when one of its two
    auto-generated flags is set; when fewer than two lists remain the
    handler returns normally with [success], no common member, the
    explanatory message and the number of lists that remained. *)
Theorem too_few_source_lists :
  (forall l,
     main.is_source l = false <->
     l_is_auto_generated l = true \/ l_isAutoGenerated l = Some true) /\
  (forall (order : Py.SetOrder) w,
     List.length (filter main.is_source (stored_lists w)) < 2 ->
     exists w',
       main.get_common_members w
       = (Ok (main.mkResponse true
                (Some (main.mkCommonMembersData
                         []
                         (List.length (filter main.is_source (stored_lists w)))
                         None
                         (Some "Need at least 2 lists to find common members")))
                None),
          w') /\
       document w' = document w).
Proof.
  split.
  - intros l. unfold main.is_source, main.flag.
    destruct (l_is_auto_generated l), (l_isAutoGenerated l) as [[|]|]; cbn;
      split; intros H; try reflexivity; try discriminate H; auto;
      destruct H as [H|H]; discriminate H.
  - intros order [f clk t conns devs oracle n wr].
    unfold stored_lists, document; cbn [file].
    intros Hlt.
    unfold main.get_common_members, bind. rewrite get_lists_run.
    unfold ret, main.find_common_members.
    apply Nat.ltb_lt in Hlt. rewrite Hlt.
    eexists; split; reflexivity.
Qed.

Lemma too_few_source_lists_witness :
  exists w',
    main.get_common_members
      (order := first_seen_order)
      (world_with (mkStoreDocument [team_list; generated_list] [] None))
    = (Ok (main.mkResponse true
             (Some (main.mkCommonMembersData
                      [] 1 None
                      (Some "Need at least 2 lists to find common members")))
             None),
       w').
Proof.
  destruct (proj2 too_few_source_lists first_seen_order
              (world_with (mkStoreDocument [team_list; generated_list] [] None)))
    as [w' [Hrun _]].
  - cbn. lia.
  - exists w'. exact Hrun.
Defined.

(* ================================================================== *)
(** * Insertion-ordered dictionaries *)

Section DictFacts.
Context {V : Type}.
Implicit Types (d : Py.dict V) (k : string) (v : V).

Lemma get_set_same k v d : Py.get k (Py.set k v d) = Some v.
Proof.
  induction d as [|[k' v'] d IH]; simpl.
  - now rewrite String.eqb_refl.
  - destruct (String.eqb_spec k k') as [->|E]; simpl.
    + now rewrite String.eqb_refl.
    + destruct (String.eqb_spec k k'); [contradiction|exact IH].
Qed.

Lemma get_set_other k k' v d :
  k <> k' -> Py.get k (Py.set k' v d) = Py.get k d.
Proof.
  intros Hne. induction d as [|[k1 v1] d IH]; simpl.
  - destruct (String.eqb_spec k k'); [contradiction|reflexivity].
  - destruct (String.eqb_spec k' k1) as [->|E]; simpl.
    + destruct (String.eqb_spec k k1); [contradiction|reflexivity].
    + destruct (String.eqb_spec k k1); [reflexivity|exact IH].
Qed.

Lemma get_None_iff k d : Py.get k d = None <-> ~ In k (Py.keys d).
Proof.
  induction d as [|[k' v'] d IH]; simpl.
  - tauto.
  - destruct (String.eqb_spec k k') as [->|E].
    + split; [discriminate|]. intros H. exfalso. apply H. now left.
    + rewrite IH. split.
      * intros H [H'|H']; [congruence|contradiction].
      * intros H H'. apply H. now right.
Qed.

Lemma get_Some_In k v d : Py.get k d = Some v -> In (k, v) d.
Proof.
  induction d as [|[k' v'] d IH]; simpl; [discriminate|].
  destruct (String.eqb_spec k k') as [->|E].
  - intros [= ->]. now left.
  - intros H. right. now apply IH.
Qed.

Lemma In_get_Some k v d : NoDup (Py.keys d) -> In (k, v) d -> Py.get k d = Some v.
Proof.
  induction d as [|[k' v'] d IH]; simpl; [tauto|].
  intros Hnd [H|H].
  - injection H as -> ->. now rewrite String.eqb_refl.
  - inversion Hnd as [|? ? Hnot Hnd']; subst.
    destruct (String.eqb_spec k k') as [->|E].
    + exfalso. apply Hnot. change k' with (fst (k', v)). now apply in_map.
    + now apply IH.
Qed.

Lemma keys_set k v d :
  Py.keys (Py.set k v d)
  = if Py.mem k d then Py.keys d else Py.keys d ++ [k].
Proof.
  unfold Py.mem.
  induction d as [|[k' v'] d IH]; simpl.
  - reflexivity.
  - destruct (String.eqb_spec k k') as [->|E]; simpl.
    + reflexivity.
    + rewrite IH. now destruct (Py.get k d).
Qed.

Lemma NoDup_keys_set k v d :
  NoDup (Py.keys d) -> NoDup (Py.keys (Py.set k v d)).
Proof.
  intros Hnd. rewrite keys_set. unfold Py.mem.
  destruct (Py.get k d) eqn:E; [exact Hnd|].
  apply get_None_iff in E.
  apply NoDup_app; [exact Hnd|repeat constructor; simpl; tauto|].
  intros x Hx [<-|[]]. contradiction.
Qed.

Lemma In_set k v d kv :
  In kv (Py.set k v d) -> kv = (k, v) \/ In kv d.
Proof.
  induction d as [|[k' v'] d IH]; simpl.
  - intros [<-|[]]. now left.
  - destruct (String.eqb_spec k k') as [->|E]; simpl.
    + intros [<-|H]; auto.
    + intros [<-|H]; auto. destruct (IH H); auto.
Qed.

End DictFacts.

(* ================================================================== *)
(** * The merge engine *)

Lemma keyed_set (l : StoredList) (d : Py.dict StoredList) :
  keyed d -> keyed (Py.set (l_id l) l d).
Proof.
  unfold keyed. rewrite !Forall_forall.
  intros Hd kv Hin. apply In_set in Hin as [->|Hin]; [reflexivity|auto].
Qed.

Lemma index_by_id_from (ls : list StoredList) :
  forall d,
    NoDup (Py.keys d) -> keyed d ->
    NoDup (Py.keys (fold_left (fun d l => Py.set (l_id l) l d) ls d)) /\
    keyed (fold_left (fun d l => Py.set (l_id l) l d) ls d).
Proof.
  induction ls as [|l ls IH]; intros d Hnd Hk; simpl.
  - now split.
  - apply IH; [now apply NoDup_keys_set|now apply keyed_set].
Qed.

Lemma index_by_id_wf (ls : list StoredList) :
  NoDup (Py.keys (storage_service.index_by_id ls)) /\
  keyed (storage_service.index_by_id ls).
Proof. apply index_by_id_from; constructor. Qed.

Lemma merged_wf clk device_id (lists : list StoredList) :
  forall t d,
    NoDup (Py.keys d) -> keyed d ->
    NoDup (Py.keys (merged clk t device_id lists d)) /\
    keyed (merged clk t device_id lists d).
Proof.
  induction lists as [|l lists IH]; intros t d Hnd Hk; simpl.
  - now split.
  - apply IH; [now apply NoDup_keys_set|].
    exact (keyed_set (storage_service.stamp device_id (isoformat (clk t)) l)
                     d Hk).
Qed.

Lemma merged_app clk device_id (pre rest : list StoredList) :
  forall t d,
    merged clk t device_id (pre ++ rest) d
    = merged clk (t + List.length pre) device_id rest
             (merged clk t device_id pre d).
Proof.
  induction pre as [|l pre IH]; intros t d; simpl.
  - now rewrite Nat.add_0_r.
  - rewrite IH. f_equal. lia.
Qed.

Lemma get_merged_other clk device_id k (lists : list StoredList) :
  forall t d,
    ~ In k (map l_id lists) ->
    Py.get k (merged clk t device_id lists d) = Py.get k d.
Proof.
  induction lists as [|l lists IH]; intros t d Hnot; simpl in *.
  - reflexivity.
  - rewrite IH by tauto. apply get_set_other. intros ->. tauto.
Qed.

(** The last incoming list with a given id is the one the dictionary
    holds under that id. *)
Lemma get_merged_last clk device_id (pre post : list StoredList) new_list :
  forall t d,
    ~ In (l_id new_list) (map l_id post) ->
    Py.get (l_id new_list)
           (merged clk t device_id (pre ++ new_list :: post) d)
    = Some (storage_service.stamp device_id
              (isoformat (clk (t + List.length pre))) new_list).
Proof.
  intros t d Hnot. rewrite merged_app. cbn [merged].
  rewrite get_merged_other by exact Hnot.
  apply get_set_same.
Qed.

Lemma with_id_values (k : string) (d : Py.dict StoredList) :
  NoDup (Py.keys d) -> keyed d ->
  with_id k (Py.values d)
  = match Py.get k d with Some v => [v] | None => [] end.
Proof.
  unfold with_id, keyed.
  induction d as [|[k' v] d IH]; intros Hnd Hk; simpl in *.
  - reflexivity.
  - inversion Hnd as [|? ? Hnot Hnd']; subst.
    inversion Hk as [|? ? Hv Hk']; subst. simpl in Hv. rewrite Hv.
    rewrite (String.eqb_sym k k').
    destruct (String.eqb_spec k' k) as [->|E].
    + rewrite IH by assumption.
      apply get_None_iff in Hnot. now rewrite Hnot.
    + now apply IH.
Qed.

Lemma ids_of_values (d : Py.dict StoredList) :
  keyed d -> map l_id (Py.values d) = Py.keys d.
Proof.
  unfold keyed, Py.values, Py.keys. induction 1 as [|[k v] d Hv _ IH]; simpl.
  - reflexivity.
  - simpl in Hv. now rewrite Hv, IH.
Qed.

Lemma merge_lists_run f clk conns devs oracle n wr device_id lists :
  forall t d,
    storage_service.merge_lists device_id lists d
      (mkWorld f clk t conns devs oracle n wr)
    = (Ok (merged clk t device_id lists d),
       mkWorld f clk (t + List.length lists) conns devs oracle n wr).
Proof.
  induction lists as [|l lists IH]; intros t d.
  - simpl. unfold ret. now rewrite Nat.add_0_r.
  - cbn [storage_service.merge_lists]. unfold bind at 1, now. world_simpl.
    rewrite IH. cbn [merged List.length].
    replace (S t + List.length lists) with (t + S (List.length lists)) by lia.
    reflexivity.
Qed.

Lemma sync_from_android_run f clk t conns devs oracle n wr device_id lists :
  storage_service.sync_from_android device_id lists
    (mkWorld f clk t conns devs oracle n wr)
  = let stored :=
      Py.values (merged clk t device_id lists
                        (storage_service.index_by_id (doc_lists (doc_of f)))) in
    let at_end := isoformat (clk (t + List.length lists)) in
    (Ok (storage_service.mkSyncResult (List.length lists)
                                      (List.length stored) (Some at_end)),
     mkWorld (Some (mkStoreDocument stored (doc_logs (doc_of f))
                                    (Some at_end)))
             clk (S (t + List.length lists)) conns devs oracle n wr).
Proof.
  unfold storage_service.sync_from_android, bind at 1.
  rewrite load_data_run. unfold bind at 1. rewrite merge_lists_run.
  unfold bind at 1, now. world_simpl.
  unfold bind. rewrite save_data_run. reflexivity.
Qed.

(** C2. After a sync, the store holds exactly one list under the id of an
    incoming list: the incoming content (of the last incoming list with
    that id, when the batch repeats it) stamped with the device and with
    the clock reading taken for it. Syncing one id twice leaves one entry,
    with the second content. *)
Theorem sync_last_write_wins :
  (forall w device_id pre new_list post,
     ~ In (l_id new_list) (map l_id post) ->
     exists result w' stored,
       storage_service.sync_from_android
         device_id (pre ++ new_list :: post) w = (Ok result, w') /\
       with_id (l_id new_list) (stored_lists w') = [stored] /\
       stored = storage_service.stamp
                  device_id
                  (isoformat (clock w (ticks w + List.length pre))) new_list /\
       l_synced_from stored = Some device_id /\
       (l_name stored, l_members stored, l_created_at stored,
        l_is_auto_generated stored)
       = (l_name new_list, l_members new_list, l_created_at new_list,
          l_is_auto_generated new_list)) /\
  (forall w device1 device2 first second,
     l_id first = l_id second ->
     exists r1 w1 r2 w2,
       storage_service.sync_from_android device1 [first] w = (Ok r1, w1) /\
       storage_service.sync_from_android device2 [second] w1 = (Ok r2, w2) /\
       with_id (l_id first) (stored_lists w1)
       = [storage_service.stamp device1 (isoformat (clock w (ticks w))) first] /\
       with_id (l_id first) (stored_lists w2)
       = [storage_service.stamp device2 (isoformat (clock w1 (ticks w1)))
                                second]).
Proof.
  assert (General :
    forall f clk t conns devs oracle n wr device_id pre new_list post,
      ~ In (l_id new_list) (map l_id post) ->
      with_id (l_id new_list)
        (stored_lists
           (snd (storage_service.sync_from_android
                   device_id (pre ++ new_list :: post)
                   (mkWorld f clk t conns devs oracle n wr))))
      = [storage_service.stamp device_id
           (isoformat (clk (t + List.length pre))) new_list]).
  { intros f clk t conns devs oracle n wr device_id pre new_list post Hnot.
    rewrite sync_from_android_run.
    unfold stored_lists, document. cbn [snd file doc_of doc_lists].
    destruct (index_by_id_wf (doc_lists (doc_of f))) as [Hnd Hk].
    destruct (merged_wf clk device_id (pre ++ new_list :: post) t _ Hnd Hk)
      as [Hnd' Hk'].
    rewrite (with_id_values _ _ Hnd' Hk').
    now rewrite get_merged_last. }
  split.
  - intros [f clk t conns devs oracle n wr] device_id pre new_list post Hnot.
    pose proof (General f clk t conns devs oracle n wr device_id pre
                        new_list post Hnot) as G.
    rewrite sync_from_android_run in G |- *.
    eexists; eexists; eexists. split; [reflexivity|].
    split; [exact G|]. repeat split.
  - intros [f clk t conns devs oracle n wr] device1 device2 first second Hid.
    pose proof (General f clk t conns devs oracle n wr device1 [] first []
                        (fun H => H)) as G1.
    rewrite sync_from_android_run in G1 |- *.
    cbv zeta in G1 |- *. cbn [snd] in G1.
    eexists; eexists.
    match goal with
    | |- exists r2 w2, (Ok ?r, ?w1) = _ /\ _ =>
        pose proof (General (file w1) clk (ticks w1) conns devs oracle n wr
                            device2 [] second [] (fun H => H)) as G2
    end.
    cbn [file ticks] in G2.
    rewrite sync_from_android_run in G2 |- *.
    cbv zeta in G2 |- *. cbn [snd] in G2.
    eexists; eexists. split; [reflexivity|]. split; [reflexivity|].
    cbn [app List.length] in G1, G2. rewrite Nat.add_0_r in G1, G2.
    split; [exact G1|]. rewrite Hid. exact G2.
Qed.

Lemma sync_last_write_wins_witness :
  exists r1 w1 r2 w2,
    storage_service.sync_from_android "A" [team_v1] fresh_world = (Ok r1, w1) /\
    storage_service.sync_from_android "B" [team_v2] w1 = (Ok r2, w2) /\
    with_id "L1" (stored_lists w1)
    = [storage_service.stamp "A" "0" team_v1] /\
    with_id "L1" (stored_lists w2)
    = [storage_service.stamp "B" "2" team_v2].
Proof.
  destruct (proj2 sync_last_write_wins fresh_world "A" "B" team_v1 team_v2
                  eq_refl)
    as (r1 & w1 & r2 & w2 & H1 & H2 & H3 & H4).
  exists r1, w1, r2, w2.
  split; [exact H1|]. split; [exact H2|]. split; [exact H3|].
  vm_compute in H1. injection H1 as <- <-. exact H4.
Defined.

(* ================================================================== *)
(** * The fan-out hub *)

Section HubRuns.
Import ConnectionManager.

Variables (f : option StoreDocument) (clk : nat -> DateTime) (t : nat)
          (devs : Py.dict string)
          (oracle : nat -> WebSocket -> Message -> option PyException)
          (message : Message).

Lemma try_send_run conns n wr connection disconnected :
  try_send connection message disconnected
           (mkWorld f clk t conns devs oracle n wr)
  = match oracle n connection message with
    | None => (Ok disconnected,
               mkWorld f clk t conns devs oracle (S n)
                       (wr ++ [(connection, message)]))
    | Some _ => (Ok (disconnected ++ [connection]),
                 mkWorld f clk t conns devs oracle (S n) wr)
    end.
Proof.
  unfold try_send, try_except, bind, send_json. world_simpl.
  now destruct (oracle n connection message).
Qed.

Lemma sweep_run conns cs :
  forall n wr disconnected,
    sweep cs message disconnected (mkWorld f clk t conns devs oracle n wr)
    = (Ok (disconnected ++ casualties oracle n message cs),
       mkWorld f clk t conns devs oracle (n + List.length cs)
               (wr ++ map (fun c => (c, message))
                          (survivors oracle n message cs))).
Proof.
  induction cs as [|c cs IH]; intros n wr disconnected.
  - simpl. unfold ret. now rewrite Nat.add_0_r, !app_nil_r.
  - cbn [sweep]. unfold bind at 1. rewrite try_send_run.
    cbn [survivors casualties List.length].
    replace (n + S (List.length cs)) with (S n + List.length cs) by lia.
    destruct (oracle n c message); rewrite IH.
    + now rewrite <- app_assoc.
    + cbn [map]. now rewrite <- app_assoc.
Qed.

Lemma skipn_nth_error {A} (l : list A) :
  forall i x, nth_error l i = Some x -> skipn i l = x :: skipn (S i) l.
Proof.
  induction l as [|y l IH]; intros [|i] x H; simpl in *; try discriminate.
  - now injection H as ->.
  - now apply IH.
Qed.

(** The list iterator finds the live list as it was at every step, so it
    serves exactly the connections from its index on. *)
Lemma sweep_live_run conns :
  forall fuel i n wr disconnected,
    List.length conns - i < fuel ->
    sweep_live fuel i message disconnected
               (mkWorld f clk t conns devs oracle n wr)
    = Some (sweep (skipn i conns) message disconnected
                  (mkWorld f clk t conns devs oracle n wr)).
Proof.
  induction fuel as [|fuel IH]; intros i n wr disconnected Hfuel; [lia|].
  cbn [sweep_live active_connections].
  destruct (nth_error conns i) as [c|] eqn:E.
  - rewrite (skipn_nth_error _ _ _ E). cbn [sweep]. unfold bind at 1.
    assert (Hi : i < List.length conns)
      by (apply nth_error_Some; congruence).
    rewrite try_send_run.
    destruct (oracle n c message); apply IH; lia.
  - apply nth_error_None in E. now rewrite skipn_all2.
Qed.

Lemma disconnect_all_run n wr disconnected :
  forall conns,
    for_each disconnected disconnect (mkWorld f clk t conns devs oracle n wr)
    = (Ok tt, mkWorld f clk t (remove_all disconnected conns) devs oracle n wr).
Proof.
  induction disconnected as [|c disconnected IH]; intros conns.
  - reflexivity.
  - cbn [for_each]. unfold bind at 1, disconnect at 1. world_simpl.
    unfold remove_all. cbn [fold_left].
    destruct (list_in c conns); apply IH.
Qed.

Lemma broadcast_run conns n wr :
  broadcast message (mkWorld f clk t conns devs oracle n wr)
  = (Ok tt,
     mkWorld f clk t
             (remove_all (casualties oracle n message conns) conns)
             devs oracle (n + List.length conns)
             (wr ++ map (fun c => (c, message))
                        (survivors oracle n message conns))).
Proof.
  unfold broadcast, bind. world_simpl.
  rewrite sweep_run. cbn [app]. apply disconnect_all_run.
Qed.

End HubRuns.

Lemma casualties_subset oracle message cs :
  forall k c, In c (casualties oracle k message cs) -> In c cs.
Proof.
  induction cs as [|x cs IH]; intros k c; simpl; [tauto|].
  destruct (oracle k x message); simpl; intros H.
  - destruct H as [H|H]; [now left|right; eauto].
  - right; eauto.
Qed.

Lemma survivors_subset oracle message cs :
  forall k c, In c (survivors oracle k message cs) -> In c cs.
Proof.
  induction cs as [|x cs IH]; intros k c; simpl; [tauto|].
  destruct (oracle k x message); simpl; intros H.
  - right; eauto.
  - destruct H as [H|H]; [now left|right; eauto].
Qed.

Lemma survivors_or_casualties oracle message cs :
  forall k c,
    In c cs ->
    In c (survivors oracle k message cs) \/ In c (casualties oracle k message cs).
Proof.
  induction cs as [|x cs IH]; intros k c; simpl; [tauto|].
  intros [->|H].
  - destruct (oracle k c message); simpl; auto.
  - destruct (IH (S k) c H); destruct (oracle k x message); simpl; auto.
Qed.

Lemma survivors_not_casualties oracle message cs :
  forall k c,
    NoDup cs ->
    In c (casualties oracle k message cs) ->
    ~ In c (survivors oracle k message cs).
Proof.
  induction cs as [|x cs IH]; intros k c Hnd; simpl; [tauto|].
  inversion Hnd as [|? ? Hx Hnd']; subst.
  destruct (oracle k x message); simpl.
  - intros [->|H] H'.
    + apply Hx. eapply survivors_subset; eauto.
    + eapply IH; eauto.
  - intros H [->|H'].
    + apply Hx. eapply casualties_subset; eauto.
    + eapply IH; eauto.
Qed.

Lemma remove_all_keeps_head (fs : list WebSocket) :
  forall c cs,
    ~ In c fs -> remove_all fs (c :: cs) = c :: remove_all fs cs.
Proof.
  unfold remove_all.
  induction fs as [|x fs IH]; intros c cs Hnot; simpl in *.
  - reflexivity.
  - destruct (Nat.eqb_spec x c) as [->|E]; [tauto|].
    simpl. destruct (ConnectionManager.list_in x cs); apply IH; tauto.
Qed.

(** Without repeated connections, dropping the casualties one by one
    leaves the survivors, in their order. *)
Lemma remove_casualties oracle message cs :
  forall k,
    NoDup cs ->
    remove_all (casualties oracle k message cs) cs
    = survivors oracle k message cs.
Proof.
  induction cs as [|c cs IH]; intros k Hnd; simpl.
  - reflexivity.
  - inversion Hnd as [|? ? Hc Hnd']; subst.
    destruct (oracle k c message).
    + unfold remove_all. cbn [fold_left ConnectionManager.list_in existsb].
      rewrite Nat.eqb_refl. cbn [orb ConnectionManager.list_remove].
      rewrite Nat.eqb_refl. now apply IH.
    + rewrite remove_all_keeps_head.
      * f_equal. now apply IH.
      * intros H. apply Hc. eapply casualties_subset; eauto.
Qed.

(** C3. With every subscriber listed once, [broadcast] returns normally
    whatever the transport does. The first loop calls [send_json] once per
    subscriber, in order, and leaves the live list as it found it (the
    list iterator, which reads the live list at every step, serves the
    same connections); only then are the subscribers whose call raised
    removed. Afterwards the live list is the list of subscribers whose
    call returned, each of them has the event on the wire, and none of the
    failed ones is live. *)
Theorem broadcast_isolates_failures (w : World) (message : Message) :
  NoDup (active_connections w) ->
  let live := active_connections w in
  let alive := survivors (send_outcome w) (sends w) message live in
  let failed := casualties (send_outcome w) (sends w) message live in
  exists w1 w',
    (forall fuel, List.length live < fuel ->
       ConnectionManager.sweep_live fuel 0 message [] w = Some (Ok failed, w1)) /\
    active_connections w1 = live /\
    sends w1 = sends w + List.length live /\
    wire w1 = wire w ++ map (fun c => (c, message)) alive /\
    (forall fuel, List.length live < fuel ->
       ConnectionManager.broadcast_live fuel message w = Some (Ok tt, w')) /\
    ConnectionManager.broadcast message w = (Ok tt, w') /\
    active_connections w' = alive /\
    wire w' = wire w1 /\
    sends w' = sends w1 /\
    file w' = file w /\
    (forall c, In c failed -> In c live /\ ~ In c (active_connections w')) /\
    (forall c, In c live -> ~ In c failed ->
       In c (active_connections w') /\ In (c, message) (wire w')).
Proof.
  destruct w as [f clk t conns devs oracle n wr]. world_simpl.
  intros Hnd.
  set (alive := survivors oracle n message conns).
  set (failed := casualties oracle n message conns).
  pose (w1 := mkWorld f clk t conns devs oracle (n + List.length conns)
                      (wr ++ map (fun c => (c, message)) alive)).
  assert (Hsweep : forall fuel, List.length conns < fuel ->
            ConnectionManager.sweep_live
              fuel 0 message [] (mkWorld f clk t conns devs oracle n wr)
            = Some (Ok failed, w1)).
  { intros fuel Hfuel. rewrite sweep_live_run by lia.
    cbn [skipn]. now rewrite sweep_run. }
  exists w1. eexists.
  split; [exact Hsweep|].
  split; [reflexivity|]. split; [reflexivity|]. split; [reflexivity|].
  split.
  { intros fuel Hfuel. unfold ConnectionManager.broadcast_live.
    rewrite (Hsweep fuel Hfuel). unfold w1. rewrite disconnect_all_run.
    reflexivity. }
  rewrite broadcast_run. world_simpl.
  unfold failed. rewrite remove_casualties by exact Hnd. fold alive failed.
  split; [reflexivity|].
  split; [reflexivity|]. split; [reflexivity|]. split; [reflexivity|].
  split; [reflexivity|].
  split.
  - intros c Hc. split.
    + eapply casualties_subset; exact Hc.
    + now apply survivors_not_casualties.
  - intros c Hc Hnot.
    destruct (survivors_or_casualties oracle message conns n c Hc) as [H|H];
      [|contradiction].
    split; [exact H|].
    apply in_or_app. right.
    now apply (in_map (fun c => (c, message))).
Qed.

Lemma broadcast_isolates_failures_witness :
  exists w',
    ConnectionManager.broadcast list_created three_subscribers = (Ok tt, w') /\
    active_connections w' = [1; 3] /\
    wire w' = [(1, list_created); (3, list_created)].
Proof.
  destruct (broadcast_isolates_failures three_subscribers list_created)
    as (w1 & w' & _ & _ & _ & H1 & _ & Hrun & Hlive & Hwire & _).
  - cbn. repeat constructor; cbn; intuition discriminate.
  - exists w'. split; [exact Hrun|]. split; [exact Hlive|].
    rewrite Hwire. exact H1.
Defined.

(* ================================================================== *)
(** * The handlers and the ids of the stored lists *)

Lemma notify_data_change_run f clk t conns devs oracle n wr action details :
  exists conns' n' wr',
    ConnectionManager.notify_data_change action details
      (mkWorld f clk t conns devs oracle n wr)
    = (Ok tt, mkWorld f clk (S t) conns' devs oracle n' wr').
Proof.
  unfold ConnectionManager.notify_data_change, bind, now. world_simpl.
  rewrite broadcast_run. eauto.
Qed.

Lemma notify_sync_run f clk t conns devs oracle n wr device lc mc :
  exists conns' devs' n' wr',
    ConnectionManager.notify_sync device lc mc
      (mkWorld f clk t conns devs oracle n wr)
    = (Ok tt, mkWorld f clk (S (S t)) conns' devs' oracle n' wr').
Proof.
  unfold ConnectionManager.notify_sync, bind, now. world_simpl.
  rewrite broadcast_run. eauto.
Qed.

Lemma create_list_lists (w : World) (b : BroadcastList) :
  exists resp w',
    main.create_list b w = (Ok resp, w') /\
    stored_lists w' = stored_lists w ++ [dict_of b].
Proof.
  destruct w as [f clk t conns devs oracle n wr].
  unfold main.create_list, bind at 1. rewrite get_lists_run.
  unfold bind at 1. rewrite save_lists_run.
  unfold bind at 1. rewrite add_log_run.
  unfold bind.
  match goal with
  | |- context [ConnectionManager.notify_data_change ?a ?d ?w] =>
      match w with
      | mkWorld ?f' ?c' ?t' ?cs' ?ds' ?o' ?n' ?wr' =>
          destruct (notify_data_change_run f' c' t' cs' ds' o' n' wr' a d)
            as (conns' & n'' & wr'' & ->)
      end
  end.
  unfold ret. eexists; eexists; split; reflexivity.
Qed.

Lemma filter_same_length {A} (p : A -> bool) (l : list A) :
  List.length (filter p l) = List.length l -> filter p l = l.
Proof.
  induction l as [|x l IH]; simpl; [reflexivity|].
  destruct (p x); simpl; intros H.
  - f_equal. apply IH. lia.
  - pose proof (filter_length_le p l). lia.
Qed.

Lemma delete_list_lists (w : World) (list_id : string) :
  exists r w',
    main.delete_list list_id w = (r, w') /\
    stored_lists w'
    = filter (fun l => negb (String.eqb (l_id l) list_id)) (stored_lists w).
Proof.
  destruct w as [f clk t conns devs oracle n wr].
  unfold stored_lists at 2, document. world_simpl.
  unfold main.delete_list, bind at 1. rewrite get_lists_run.
  destruct (Nat.eqb_spec
              (List.length (filter (fun l => negb (String.eqb (l_id l) list_id))
                                   (doc_lists (doc_of f))))
              (List.length (doc_lists (doc_of f)))) as [E|E].
  - apply filter_same_length in E. rewrite E.
    eexists; eexists; split; reflexivity.
  - unfold bind at 1. rewrite save_lists_run.
    unfold bind at 1. rewrite add_log_run.
    unfold bind.
    match goal with
    | |- context [ConnectionManager.notify_data_change ?a ?d ?w] =>
        match w with
        | mkWorld ?f' ?c' ?t' ?cs' ?ds' ?o' ?n' ?wr' =>
            destruct (notify_data_change_run f' c' t' cs' ds' o' n' wr' a d)
              as (conns' & n'' & wr'' & ->)
        end
    end.
    unfold ret. eexists; eexists; split; reflexivity.
Qed.

Lemma sync_handler_lists (w : World) (request : SyncRequest) :
  exists resp w',
    main.sync_from_android request w = (Ok resp, w') /\
    stored_lists w'
    = Py.values
        (merged (clock w) (ticks w) (device_id request)
                (map dict_of (lists request))
                (storage_service.index_by_id (stored_lists w))).
Proof.
  destruct w as [f clk t conns devs oracle n wr].
  unfold stored_lists at 2, document. world_simpl.
  unfold main.sync_from_android, try_except, bind at 1.
  rewrite sync_from_android_run. cbv zeta.
  unfold bind at 1. rewrite add_log_run.
  unfold bind.
  match goal with
  | |- context [ConnectionManager.notify_sync ?a ?b ?c ?w] =>
      match w with
      | mkWorld ?f' ?c' ?t' ?cs' ?ds' ?o' ?n' ?wr' =>
          destruct (notify_sync_run f' c' t' cs' ds' o' n' wr' a b c)
            as (conns' & devs' & n'' & wr'' & ->)
      end
  end.
  unfold ret. eexists; eexists; split; reflexivity.
Qed.

Lemma NoDup_map_filter {A B} (g : A -> B) (p : A -> bool) (l : list A) :
  NoDup (map g l) -> NoDup (map g (filter p l)).
Proof.
  induction l as [|x l IH]; simpl; intros H; [constructor|].
  inversion H as [|? ? Hx Hl]; subst.
  destruct (p x); simpl; [constructor|]; auto.
  intros Hin. apply Hx.
  apply in_map_iff in Hin as (y & <- & Hy).
  apply in_map. now apply filter_In in Hy.
Qed.

Lemma after_sync_unique (w : World) (request : SyncRequest) :
  unique_ids (after (Sync request) w).
Proof.
  unfold after, unique_ids.
  destruct (sync_handler_lists w request) as (resp & w' & Hrun & Hlists).
  rewrite Hrun. cbn [snd]. rewrite Hlists.
  destruct (index_by_id_wf (stored_lists w)) as [Hnd Hk].
  destruct (merged_wf (clock w) (device_id request)
                      (map dict_of (lists request)) (ticks w) _ Hnd Hk)
    as [Hnd' Hk'].
  now rewrite ids_of_values.
Qed.

Lemma after_preserves_unique (w : World) (c : Call) :
  unique_ids w -> brings_new_id c w -> unique_ids (after c w).
Proof.
  intros Hu Hnew. destruct c as [request|b|list_id].
  - apply after_sync_unique.
  - unfold after, unique_ids.
    destruct (create_list_lists w b) as (resp & w' & Hrun & Hlists).
    rewrite Hrun. cbn [snd]. rewrite Hlists, map_app. cbn [map dict_of l_id].
    apply NoDup_app; [exact Hu|repeat constructor; simpl; tauto|].
    intros x Hx [<-|[]]. exact (Hnew Hx).
  - unfold after, unique_ids.
    destruct (delete_list_lists w list_id) as (r & w' & Hrun & Hlists).
    rewrite Hrun. cbn [snd]. rewrite Hlists. now apply NoDup_map_filter.
Qed.

(** C5, as the code has it. A sync always leaves pairwise-distinct ids, a
    delete keeps them distinct, and a create keeps them distinct when its
    id is not in the store yet; so every world reached from a store
    without file by syncs, deletes and creates of new ids has
    pairwise-distinct ids. *)
Theorem unique_ids_preserved :
  (forall w request, unique_ids (after (Sync request) w)) /\
  (forall w list_id,
     unique_ids w -> unique_ids (after (Delete list_id) w)) /\
  (forall w broadcast_list,
     unique_ids w ->
     ~ In (id broadcast_list) (map l_id (stored_lists w)) ->
     unique_ids (after (Create broadcast_list) w)) /\
  (forall w, reachable w -> unique_ids w).
Proof.
  split; [exact after_sync_unique|].
  split; [intros w list_id Hu;
          exact (after_preserves_unique w (Delete list_id) Hu I)|].
  split; [intros w b Hu Hnew;
          exact (after_preserves_unique w (Create b) Hu Hnew)|].
  induction 1 as [w Hfile|w c _ IH Hnew].
  - unfold unique_ids, stored_lists, document. rewrite Hfile. constructor.
  - now apply after_preserves_unique.
Qed.

Lemma unique_ids_preserved_witness :
  unique_ids
    (after (Delete "L1")
       (after (Create friends_request)
          (after (Sync (mkSyncRequest "A" [team_request; team_request] "0"))
                 fresh_world))).
Proof.
  apply (proj2 (proj2 (proj2 unique_ids_preserved))).
  apply reach_call; [|exact I].
  apply reach_call.
  - apply reach_call; [|exact I]. apply reach_start. reflexivity.
  - vm_compute. intros [H|[]]. discriminate H.
Defined.

(** C5, as stated, fails: [create_list] appends without looking at the
    ids, so creating the list "L1" twice stores it twice. *)
Lemma create_list_repeats_id :
  unique_ids (after (Create team_request) fresh_world) /\
  map l_id (stored_lists
              (after (Create team_request)
                     (after (Create team_request) fresh_world)))
  = ["L1"; "L1"] /\
  ~ unique_ids (after (Create team_request)
                      (after (Create team_request) fresh_world)).
Proof.
  split; [|split].
  - unfold unique_ids.
    replace (map l_id (stored_lists (after (Create team_request) fresh_world)))
      with ["L1"] by (vm_compute; reflexivity).
    repeat constructor. simpl. tauto.
  - vm_compute. reflexivity.
  - unfold unique_ids.
    replace (map l_id (stored_lists
                         (after (Create team_request)
                                (after (Create team_request) fresh_world))))
      with ["L1"; "L1"] by (vm_compute; reflexivity).
    intros H. inversion H as [|? ? Hnot _]; subst. apply Hnot. now left.
Qed.

(* ================================================================== *)
(** * The common-member aggregator *)

Section Counting.
Import main.

Lemma get_count_member (lst : StoredList) (d : Py.dict Info) (m : Contact)
    (k : string) :
  Py.get k (count_member lst d m)
  = if Py.truthy (member_key m) && String.eqb (member_key m) k
    then bump (Py.get k d) (m, l_name lst)
    else Py.get k d.
Proof.
  unfold count_member.
  destruct (Py.truthy (member_key m)); [|reflexivity].
  cbn [andb]. unfold Py.mem.
  destruct (String.eqb_spec (member_key m) k) as [<-|E].
  - destruct (Py.get (member_key m) d) as [info|] eqn:G; cbn [negb].
    + rewrite G. now rewrite get_set_same.
    + rewrite get_set_same. now rewrite get_set_same.
  - assert (E' : k <> member_key m) by congruence.
    destruct (Py.get (member_key m) d) as [info|] eqn:G; cbn [negb].
    + rewrite G. now apply get_set_other.
    + rewrite get_set_same. now rewrite !get_set_other.
Qed.

Lemma keys_count_member (lst : StoredList) (d : Py.dict Info) (m : Contact) :
  NoDup (Py.keys d) -> NoDup (Py.keys (count_member lst d m)).
Proof.
  intros Hnd. unfold count_member.
  destruct (Py.truthy (member_key m)); [|exact Hnd].
  destruct (negb (Py.mem (member_key m) d)).
  - rewrite get_set_same. now do 2 apply NoDup_keys_set.
  - destruct (Py.get (member_key m) d); [now apply NoDup_keys_set|exact Hnd].
Qed.

Lemma get_inner_loop (lst : StoredList) (k : string) (ms : list Contact) :
  forall d,
    Py.get k (fold_left (count_member lst) ms d)
    = fold_left bump (tally k (occurrences_in lst ms)) (Py.get k d).
Proof.
  unfold tally, occurrences_in.
  induction ms as [|m ms IH]; intros d; cbn [fold_left filter map].
  - reflexivity.
  - rewrite IH, get_count_member.
    destruct (Py.truthy (member_key m)); cbn [andb map filter fst];
      [|reflexivity].
    now destruct (String.eqb (member_key m) k).
Qed.

Lemma keys_inner_loop (lst : StoredList) (ms : list Contact) :
  forall d,
    NoDup (Py.keys d) -> NoDup (Py.keys (fold_left (count_member lst) ms d)).
Proof.
  induction ms as [|m ms IH]; intros d Hnd; cbn [fold_left].
  - exact Hnd.
  - apply IH. now apply keys_count_member.
Qed.

Lemma get_outer_loop (k : string) (source_lists : list StoredList) :
  forall d,
    Py.get k (fold_left (fun member_counts lst =>
                           fold_left (count_member lst) (l_members lst)
                                     member_counts)
                        source_lists d)
    = fold_left bump (tally k (occurrences source_lists)) (Py.get k d).
Proof.
  unfold occurrences.
  induction source_lists as [|lst ls IH]; intros d; cbn [fold_left flat_map].
  - reflexivity.
  - rewrite IH, get_inner_loop. unfold tally.
    now rewrite filter_app, fold_left_app.
Qed.

Lemma keys_outer_loop (source_lists : list StoredList) :
  forall d,
    NoDup (Py.keys d) ->
    NoDup (Py.keys (fold_left (fun member_counts lst =>
                                 fold_left (count_member lst) (l_members lst)
                                           member_counts)
                              source_lists d)).
Proof.
  induction source_lists as [|lst ls IH]; intros d Hnd; cbn [fold_left].
  - exact Hnd.
  - apply IH. now apply keys_inner_loop.
Qed.

Lemma fold_bump_Some (t : list (Contact * string)) :
  forall info,
    fold_left bump t (Some info)
    = Some (mkInfo (member info) (count info + List.length t)
                   (in_lists info ++ map snd t)).
Proof.
  induction t as [|occ t IH]; intros info; cbn [fold_left].
  - cbn. rewrite Nat.add_0_r, app_nil_r. now destruct info.
  - unfold bump at 2. rewrite IH. cbn [member count in_lists List.length map].
    rewrite <- app_assoc. do 2 f_equal. lia.
Qed.

Lemma fold_bump_None (t : list (Contact * string)) :
  fold_left bump t None = counted t.
Proof.
  destruct t as [|occ t]; [reflexivity|].
  cbn [fold_left]. unfold bump at 2. rewrite fold_bump_Some.
  reflexivity.
Qed.

(** The dictionary the two loops build, read at any key. *)
Lemma get_count_members (k : string) (source_lists : list StoredList) :
  Py.get k (count_members source_lists)
  = counted (tally k (occurrences source_lists)).
Proof.
  unfold count_members. rewrite get_outer_loop. apply fold_bump_None.
Qed.

Lemma keys_count_members (source_lists : list StoredList) :
  NoDup (Py.keys (count_members source_lists)).
Proof. apply keys_outer_loop. constructor. Qed.

End Counting.

Section Emitting.
Import main.

Lemma In_occurrences (m : Contact) (n : string) (source_lists : list StoredList) :
  In (m, n) (occurrences source_lists) <->
  exists lst,
    In lst source_lists /\ In m (l_members lst) /\
    Py.truthy (member_key m) = true /\ l_name lst = n.
Proof.
  unfold occurrences, occurrences_in. rewrite in_flat_map. split.
  - intros (lst & Hlst & Hin). exists lst.
    apply in_map_iff in Hin as (m' & Heq & Hm').
    injection Heq as -> <-. apply filter_In in Hm' as [Hm' Ht]. auto.
  - intros (lst & Hlst & Hm & Ht & <-). exists lst. split; [exact Hlst|].
    apply in_map_iff. exists m. split; [reflexivity|].
    apply filter_In. auto.
Qed.

Lemma In_tally (k : string) (occ : Contact * string) occs :
  In occ (tally k occs) <-> In occ occs /\ member_key (fst occ) = k.
Proof.
  unfold tally. rewrite filter_In.
  now destruct (String.eqb_spec (member_key (fst occ)) k).
Qed.

(** Every entry of the dictionary is the count of the occurrences of its
    key, led by the first member seen under that key. *)
Lemma entry_of_count_members (source_lists : list StoredList) k info :
  In (k, info) (count_members source_lists) ->
  exists occ t',
    tally k (occurrences source_lists) = occ :: t' /\
    info = mkInfo (fst occ) (S (List.length t')) (snd occ :: map snd t') /\
    member_key (fst occ) = k /\
    Py.truthy k = true.
Proof.
  intros Hin.
  apply (In_get_Some _ _ _ (keys_count_members source_lists)) in Hin.
  rewrite get_count_members in Hin.
  destruct (tally k (occurrences source_lists)) as [|occ t'] eqn:T;
    [discriminate|].
  injection Hin as <-. exists occ, t'.
  assert (Hocc : In occ (tally k (occurrences source_lists)))
    by (rewrite T; now left).
  apply In_tally in Hocc as [Hocc Hk].
  repeat split; try assumption.
  destruct occ as [m n]. apply In_occurrences in Hocc as (_ & _ & _ & Ht & _).
  cbn [fst] in Hk. now rewrite <- Hk.
Qed.

Lemma insert_desc_perm (x : CommonMember) (l : list CommonMember) :
  Permutation (insert_desc x l) (x :: l).
Proof.
  induction l as [|y l IH]; cbn [insert_desc].
  - reflexivity.
  - destruct (appears_in x <? appears_in y).
    + rewrite IH. apply perm_swap.
    + reflexivity.
Qed.

Lemma sort_desc_perm (l : list CommonMember) : Permutation (sort_desc l) l.
Proof.
  unfold sort_desc. induction l as [|x l IH]; cbn [fold_right].
  - reflexivity.
  - rewrite insert_desc_perm. now constructor.
Qed.

Lemma insert_desc_sorted (x : CommonMember) (l : list CommonMember) :
  StronglySorted descending l -> StronglySorted descending (insert_desc x l).
Proof.
  induction 1 as [|y l Hl IH Hy]; cbn [insert_desc].
  - repeat constructor.
  - destruct (Nat.ltb_spec (appears_in x) (appears_in y)) as [Hlt|Hge].
    + constructor; [exact IH|].
      apply (Permutation_Forall (Permutation_sym (insert_desc_perm x l))).
      constructor; [unfold descending; lia|exact Hy].
    + constructor; [now constructor|].
      constructor; [exact Hge|].
      eapply Forall_impl; [|exact Hy].
      unfold descending. intros z Hz. lia.
Qed.

Lemma sort_desc_sorted (l : list CommonMember) :
  StronglySorted descending (sort_desc l).
Proof.
  unfold sort_desc. induction l as [|x l IH]; cbn [fold_right].
  - constructor.
  - now apply insert_desc_sorted.
Qed.

Context {order : Py.SetOrder}.

Lemma In_common_of (cm : CommonMember) (d : Py.dict Info) :
  In cm (common_of d) <->
  exists k info,
    In (k, info) d /\ 2 <= count info /\
    cm = mkCommonMember (member info) (count info)
                        (Py.list_of_set (in_lists info)).
Proof.
  unfold common_of. rewrite in_map_iff. split.
  - intros ([k info] & <- & Hin). apply filter_In in Hin as [Hin Hc].
    exists k, info. cbn [snd] in *. apply Nat.leb_le in Hc. auto.
  - intros (k & info & Hin & Hc & ->). exists (k, info).
    split; [reflexivity|]. apply filter_In. split; [exact Hin|].
    now apply Nat.leb_le.
Qed.

Lemma keys_common_of (d : Py.dict Info) :
  (forall k info, In (k, info) d -> member_key (member info) = k) ->
  map emitted_key (common_of d)
  = map fst (filter (fun kv => 2 <=? count (snd kv)) d).
Proof.
  intros Hd. unfold common_of. rewrite map_map.
  apply map_ext_in. intros [k info] Hin. apply filter_In in Hin as [Hin _].
  unfold emitted_key. cbn. now apply Hd.
Qed.

End Emitting.

Lemma get_common_members_run {order : Py.SetOrder} (w : World) :
  exists w',
    main.get_common_members w
    = (Ok (main.find_common_members (stored_lists w)), w') /\
    document w' = document w.
Proof.
  destruct w as [f clk t conns devs oracle n wr].
  unfold main.get_common_members, bind. rewrite get_lists_run.
  eexists; split; reflexivity.
Qed.

(** C9. With two or more source lists in the store, the handler returns
    one element per key that occurs at least twice among the members of
    the source lists and none for any other key; each element carries the
    number of occurrences of its key as [appears_in] and, without
    repetition, the names of the lists its key occurs in as [list_names];
    [appears_in] never increases along the emitted list. The store is
    left as it was. *)
Theorem common_members_exact (order : Py.SetOrder) (w : World) :
  2 <= List.length (filter main.is_source (stored_lists w)) ->
  exists cms w',
    main.get_common_members w
    = (Ok (main.mkResponse true
             (Some (main.mkCommonMembersData
                      cms
                      (List.length (filter main.is_source (stored_lists w)))
                      (Some (List.length cms)) None))
             None),
       w') /\
    document w' = document w /\
    StronglySorted descending cms /\
    NoDup (map emitted_key cms) /\
    (forall k,
       In k (map emitted_key cms) <->
       2 <= occurrence_count k (filter main.is_source (stored_lists w))) /\
    (forall cm,
       In cm cms ->
       main.appears_in cm
       = occurrence_count (emitted_key cm)
                          (filter main.is_source (stored_lists w)) /\
       NoDup (main.list_names cm) /\
       (forall n,
          In n (main.list_names cm) <->
          exists lst m,
            In lst (filter main.is_source (stored_lists w)) /\
            In m (l_members lst) /\
            main.member_key m = emitted_key cm /\
            l_name lst = n)).
Proof.
  destruct (get_common_members_run w) as (w' & Hrun & Hdoc).
  generalize dependent (stored_lists w). intros lists Hrun.
  intros Hlen.
  set (sources := filter main.is_source lists) in *.
  set (d := main.count_members sources).
  exists (main.sort_desc (main.common_of d)), w'.
  assert (Hkeyed : forall k info,
            In (k, info) d -> main.member_key (main.member info) = k).
  { intros k info Hin.
    destruct (entry_of_count_members sources k info Hin)
      as (occ & t' & _ & -> & Hk & _).
    exact Hk. }
  pose proof (sort_desc_perm (main.common_of d)) as Hperm.
  assert (Hkeys : Permutation
                    (map emitted_key (main.sort_desc (main.common_of d)))
                    (map fst (filter (fun kv => 2 <=? main.count (snd kv)) d))).
  { rewrite <- (keys_common_of d Hkeyed). now apply Permutation_map. }
  split.
  { rewrite Hrun. unfold main.find_common_members. fold sources.
    destruct (Nat.ltb_spec (List.length sources) 2); [lia|reflexivity]. }
  split; [exact Hdoc|].
  split; [apply sort_desc_sorted|].
  split.
  { apply (Permutation_NoDup (Permutation_sym Hkeys)).
    apply NoDup_map_filter. apply keys_count_members. }
  split.
  - intros k. unfold occurrence_count.
    rewrite (Permutation_in' (eq_refl k) Hkeys), in_map_iff. split.
    + intros ([k' info] & Hk & Hin). cbn [fst] in Hk. subst k'.
      apply filter_In in Hin as [Hin Hc]. apply Nat.leb_le in Hc.
      destruct (entry_of_count_members sources k info Hin)
        as (occ & t' & -> & -> & _).
      exact Hc.
    + intros Hc.
      pose proof (get_count_members k sources) as G. fold d in G.
      destruct (tally k (occurrences sources)) as [|occ t'] eqn:T;
        [cbn in Hc; lia|].
      cbn [counted] in G. apply get_Some_In in G.
      eexists. split; [|apply filter_In; split; [exact G|]].
      * reflexivity.
      * now apply Nat.leb_le.
  - intros cm Hcm.
    apply (Permutation_in _ Hperm) in Hcm.
    apply In_common_of in Hcm as (k & info & Hin & Hc & ->).
    unfold emitted_key, occurrence_count.
    cbn [main.cm_member main.appears_in main.list_names].
    rewrite (Hkeyed k info Hin).
    destruct (entry_of_count_members sources k info Hin)
      as (occ & t' & T & -> & Hk & Htruthy).
    rewrite T. cbn [main.count main.in_lists].
    split; [reflexivity|].
    split; [apply Py.list_of_set_NoDup|].
    intros n. rewrite Py.list_of_set_In.
    change (snd occ :: map snd t') with (map snd (occ :: t')).
    rewrite <- T, in_map_iff. split.
    + intros ([m n'] & Hn & Hocc). cbn [snd] in Hn. subst n'.
      apply In_tally in Hocc as [Hocc Hm]. cbn [fst] in Hm.
      apply In_occurrences in Hocc as (lst & Hlst & Hmem & _ & Hname).
      exists lst, m. auto.
    + intros (lst & m & Hlst & Hmem & Hm & Hname).
      exists (m, n). split; [reflexivity|].
      apply In_tally. split; [|exact Hm].
      apply In_occurrences. exists lst.
      repeat split; try assumption. now rewrite Hm.
Qed.

Lemma common_members_exact_witness :
  exists cms w',
    main.get_common_members
      (order := first_seen_order)
      (world_with (mkStoreDocument prefixed_phones [] None))
    = (Ok (main.mkResponse true
             (Some (main.mkCommonMembersData cms 2 (Some (List.length cms))
                                             None))
             None),
       w') /\
    StronglySorted descending cms /\
    (forall k,
       In k (map emitted_key cms) <->
       2 <= occurrence_count k prefixed_phones).
Proof.
  destruct (common_members_exact
              first_seen_order
              (world_with (mkStoreDocument prefixed_phones [] None)))
    as (cms & w' & Hrun & _ & Hsorted & _ & Hkeys & _).
  - cbn. lia.
  - exists cms, w'. split; [exact Hrun|]. split; [exact Hsorted|exact Hkeys].
Defined.

(** Whatever the enumeration order of a set, a list that repeats one
    element turns into that element alone. *)
Lemma list_of_set_repeated {order : Py.SetOrder} (a : string) (xs : list string) :
  In a xs -> (forall x, In x xs -> x = a) -> Py.list_of_set xs = [a].
Proof.
  intros Ha Hall.
  pose proof (Py.list_of_set_NoDup xs) as Hnd.
  assert (Hin : In a (Py.list_of_set xs)) by now apply Py.list_of_set_In.
  assert (Hl : forall x, In x (Py.list_of_set xs) -> x = a).
  { intros x Hx. apply Hall. now apply Py.list_of_set_In. }
  destruct (Py.list_of_set xs) as [|x [|y l]].
  - destruct Hin.
  - f_equal. apply Hl. now left.
  - exfalso. inversion Hnd as [|? ? Hx _]; subst. apply Hx.
    rewrite (Hl x), (Hl y); [now left|right; now left|now left].
Qed.

(** C10. In a store with two source lists, a number that sits twice in
    the list "Team" and in no other list is returned as a common member
    with [appears_in = 2]; its [list_names] is the single name "Team", and
    one source list holds its key. *)
Theorem repeated_member_counts_twice (order : Py.SetOrder) :
  exists w resp w' cm,
    2 <= List.length (filter main.is_source (stored_lists w)) /\
    main.get_common_members w = (Ok resp, w') /\
    main.data resp = Some (main.mkCommonMembersData [cm] 2 (Some 1) None) /\
    main.appears_in cm = 2 /\
    main.list_names cm = ["Team"] /\
    occurrence_count (emitted_key cm)
                     (filter main.is_source (stored_lists w)) = 2 /\
    map l_name (lists_holding (emitted_key cm)
                              (filter main.is_source (stored_lists w)))
    = ["Team"].
Proof.
  exists (world_with (mkStoreDocument repeated_in_one_list [] None)).
  eexists. eexists.
  exists (main.mkCommonMember (bob "5551234567") 2 ["Team"]).
  split; [cbn; lia|].
  split; [reflexivity|].
  split.
  - rewrite <- (list_of_set_repeated "Team" ["Team"; "Team"]).
    + reflexivity.
    + now left.
    + intros x [<-|[<-|[]]]; reflexivity.
  - repeat split.
Qed.

(** C1. The key of a member with a phone is the last ten characters of
    the phone string, so a country code in front of the same digits folds
    away: "5551234567" and "+15551234567" in two lists give one common
    member with [appears_in = 2]. Separators are characters too:
    "+1-555-123-4567" has the key "5-123-4567", not "5551234567", and
    with these two phones in two lists the handler finds no common
    member. *)
Theorem formatted_phone_not_folded (order : Py.SetOrder) :
  (forall m,
     c_phone m <> EmptyString ->
     main.member_key m = Py.last_chars 10 (c_phone m)) /\
  main.member_key (bob "+15551234567") = main.member_key (bob "5551234567") /\
  (exists names w',
     main.get_common_members
       (world_with (mkStoreDocument prefixed_phones [] None))
     = (Ok (main.mkResponse true
              (Some (main.mkCommonMembersData
                       [main.mkCommonMember (bob "5551234567") 2 names]
                       2 (Some 1) None))
              None),
        w') /\
     Permutation names ["Team"; "Friends"]) /\
  main.member_key (bob "+1-555-123-4567") = "5-123-4567" /\
  main.member_key (bob "5551234567") = "5551234567" /\
  (exists w',
     main.get_common_members
       (world_with (mkStoreDocument formatted_phones [] None))
     = (Ok (main.mkResponse true
              (Some (main.mkCommonMembersData [] 2 (Some 0) None)) None),
        w')).
Proof.
  split.
  { intros m Hphone. unfold main.member_key.
    destruct (c_phone m); [contradiction|reflexivity]. }
  split; [reflexivity|].
  split.
  { exists (Py.list_of_set ["Team"; "Friends"]). eexists.
    split; [reflexivity|].
    apply NoDup_Permutation.
    - apply Py.list_of_set_NoDup.
    - repeat constructor; simpl; intuition discriminate.
    - intros x. apply Py.list_of_set_In. }
  split; [reflexivity|]. split; [reflexivity|].
  eexists. reflexivity.
Qed.

(* ================================================================== *)
(** * More on the storage service *)

(** X1. [ensure_storage_exists] writes the empty document when the file is
    missing and leaves an existing file alone, so running it again changes
    nothing; [load_data] therefore never raises [FileNotFoundError]: it
    returns the stored document, or the empty one for a missing file, and
    the file exists afterwards. *)
Theorem load_data_creates_missing_file (w : World) :
  exists w',
    storage_service.ensure_storage_exists w = (Ok tt, w') /\
    storage_service.ensure_storage_exists w' = (Ok tt, w') /\
    storage_service.load_data w = (Ok (document w), w') /\
    file w' = Some (document w) /\
    (file w = None -> document w' = storage_service.empty_document) /\
    (forall d, file w = Some d -> file w' = Some d) /\
    ticks w' = ticks w /\
    same_hub w w'.
Proof.
  destruct w as [f clk t conns devs oracle n wr].
  unfold storage_service.load_data, bind, storage_service.ensure_storage_exists,
    storage_service.read_file, document, same_hub.
  destruct f as [d|]; world_simpl.
  - eexists. split; [reflexivity|]. world_simpl.
    split; [reflexivity|]. split; [reflexivity|]. split; [reflexivity|].
    split; [intros H; discriminate H|].
    split; [intros d' H; exact H|].
    repeat split.
  - eexists. split; [reflexivity|]. world_simpl.
    split; [reflexivity|]. split; [reflexivity|]. split; [reflexivity|].
    split; [intros _; reflexivity|].
    split; [intros d' H; discriminate H|].
    repeat split.
Qed.

(** X2. What [save_lists] writes is what [get_lists] reads back; the log
    is kept, and [last_sync] becomes the clock reading of the call. *)
Theorem save_lists_then_get_lists (w : World) (ls : list StoredList) :
  exists w1 w2,
    storage_service.save_lists ls w = (Ok tt, w1) /\
    storage_service.get_lists w1 = (Ok ls, w2) /\
    stored_lists w1 = ls /\
    stored_logs w1 = stored_logs w /\
    doc_last_sync (document w1) = Some (isoformat (clock w (ticks w))) /\
    ticks w1 = S (ticks w) /\
    document w2 = document w1.
Proof.
  destruct w as [f clk t conns devs oracle n wr].
  rewrite save_lists_run. eexists. eexists.
  split; [reflexivity|]. rewrite get_lists_run.
  split; [reflexivity|]. repeat split.
Qed.

(** X3. [clear_data] resets the store whatever it held: lists and log are
    empty and [last_sync] is unset. An [add_log] right after it leaves
    that entry as the only one. *)
Theorem clear_data_resets (w : World) (action status : string)
    (details : option string) :
  exists w1 log w2,
    storage_service.clear_data w = (Ok tt, w1) /\
    document w1 = storage_service.empty_document /\
    storage_service.add_log action status details w1 = (Ok log, w2) /\
    entry_fields log = (action, status, details) /\
    stored_logs w2 = [log] /\
    stored_lists w2 = [].
Proof.
  destruct w as [f clk t conns devs oracle n wr].
  unfold storage_service.clear_data. rewrite save_data_run.
  eexists. exists (new_log clk t action status details). eexists.
  split; [reflexivity|]. split; [reflexivity|].
  rewrite add_log_run. split; [reflexivity|]. repeat split.
Qed.

Lemma existsb_eqb_In (k : string) (l : list string) :
  existsb (String.eqb k) l = true <-> In k l.
Proof.
  rewrite existsb_exists. split.
  - intros (x & Hx & E). apply String.eqb_eq in E. now subst.
  - intros H. exists k. split; [exact H|apply String.eqb_refl].
Qed.

Lemma keys_set_note {V} (k : string) (v : V) (d : Py.dict V) :
  Py.keys (Py.set k v d) = note k (Py.keys d).
Proof.
  rewrite keys_set. unfold note, Py.mem.
  destruct (Py.get k d) eqn:G.
  - assert (H : existsb (String.eqb k) (Py.keys d) = true).
    { apply existsb_eqb_In. apply get_Some_In in G.
      change k with (fst (k, v0)). now apply in_map. }
    now rewrite H.
  - apply get_None_iff in G.
    destruct (existsb (String.eqb k) (Py.keys d)) eqn:H; [|reflexivity].
    apply existsb_eqb_In in H. contradiction.
Qed.

Lemma keys_index_from (ls : list StoredList) :
  forall d,
    Py.keys (fold_left (fun d l => Py.set (l_id l) l d) ls d)
    = first_seen_from (Py.keys d) (map l_id ls).
Proof.
  unfold first_seen_from.
  induction ls as [|l ls IH]; intros d; cbn [fold_left map].
  - reflexivity.
  - now rewrite IH, keys_set_note.
Qed.

Lemma keys_merged clk device_id (lists : list StoredList) :
  forall t d,
    Py.keys (merged clk t device_id lists d)
    = first_seen_from (Py.keys d) (map l_id lists).
Proof.
  unfold first_seen_from.
  induction lists as [|l lists IH]; intros t d; cbn [merged fold_left map].
  - reflexivity.
  - now rewrite IH, keys_set_note.
Qed.

Lemma sync_ids_run (f : option StoreDocument) clk t device_id
    (lists : list StoredList) :
  map l_id
      (Py.values (merged clk t device_id lists
                         (storage_service.index_by_id (doc_lists (doc_of f)))))
  = first_seen (map l_id (doc_lists (doc_of f)) ++ map l_id lists).
Proof.
  destruct (index_by_id_wf (doc_lists (doc_of f))) as [Hnd Hk].
  destruct (merged_wf clk device_id lists t _ Hnd Hk) as [_ Hk'].
  rewrite (ids_of_values _ Hk'), keys_merged.
  unfold storage_service.index_by_id. rewrite keys_index_from.
  unfold first_seen, first_seen_from. now rewrite fold_left_app.
Qed.

(** X4. After a sync the ids of the stored lists are the ids of the old
    lists followed by the incoming ids, each kept where it first occurs:
    an id that was stored keeps its position and a new id goes to the
    end. The result reports the number of incoming lists as [synced], the
    number of stored lists as [total] and the new [last_sync], which is
    the clock reading taken after the merge loop; the log is kept. *)
Theorem sync_ids_first_seen (w : World) (device_id : string)
    (lists : list StoredList) :
  exists result w',
    storage_service.sync_from_android device_id lists w = (Ok result, w') /\
    map l_id (stored_lists w')
    = first_seen (map l_id (stored_lists w) ++ map l_id lists) /\
    storage_service.synced result = List.length lists /\
    storage_service.total result = List.length (stored_lists w') /\
    storage_service.sr_timestamp result = doc_last_sync (document w') /\
    doc_last_sync (document w')
    = Some (isoformat (clock w (ticks w + List.length lists))) /\
    stored_logs w' = stored_logs w /\
    ticks w' = S (ticks w + List.length lists).
Proof.
  destruct w as [f clk t conns devs oracle n wr].
  rewrite sync_from_android_run. cbv zeta.
  eexists. eexists. split; [reflexivity|].
  unfold stored_lists, stored_logs, document. world_simpl.
  cbn [doc_of doc_lists doc_logs doc_last_sync storage_service.synced
       storage_service.total storage_service.sr_timestamp].
  split; [|repeat split].
  apply sync_ids_run.
Qed.

Lemma last_only_snoc {A} (l : list A) (x : A) : last_only (l ++ [x]) = [x].
Proof. unfold last_only. now rewrite rev_app_distr. Qed.

Lemma get_index_from (k : string) (ls : list StoredList) :
  forall d,
    Py.get k (fold_left (fun d l => Py.set (l_id l) l d) ls d)
    = match last_only (with_id k ls) with
      | [] => Py.get k d
      | l :: _ => Some l
      end.
Proof.
  induction ls as [|l ls IH] using rev_ind; intros d.
  - reflexivity.
  - rewrite fold_left_app. cbn [fold_left].
    unfold with_id. rewrite filter_app. cbn [filter].
    destruct (String.eqb_spec (l_id l) k) as [<-|E].
    + now rewrite get_set_same, last_only_snoc.
    + rewrite app_nil_r, get_set_other by congruence. apply IH.
Qed.

(** X5. A sync leaves the lists it does not mention alone: under an id
    that is not among the incoming ones the store holds afterwards what it
    held before, except that of several stored lists with one id only the
    last survives. *)
Theorem sync_keeps_other_lists (w : World) (device_id : string)
    (lists : list StoredList) (k : string) :
  ~ In k (map l_id lists) ->
  exists result w',
    storage_service.sync_from_android device_id lists w = (Ok result, w') /\
    with_id k (stored_lists w') = last_only (with_id k (stored_lists w)) /\
    (unique_ids w -> with_id k (stored_lists w') = with_id k (stored_lists w)).
Proof.
  destruct w as [f clk t conns devs oracle n wr]. intros Hnot.
  rewrite sync_from_android_run. cbv zeta.
  eexists. eexists. split; [reflexivity|].
  unfold unique_ids, stored_lists, document. world_simpl.
  cbn [doc_of doc_lists].
  set (old := doc_lists (doc_of f)).
  assert (Hlast : with_id k
                    (Py.values (merged clk t device_id lists
                                       (storage_service.index_by_id old)))
                  = last_only (with_id k old)).
  { destruct (index_by_id_wf old) as [Hnd Hk].
    destruct (merged_wf clk device_id lists t _ Hnd Hk) as [Hnd' Hk'].
    rewrite (with_id_values _ _ Hnd' Hk').
    rewrite get_merged_other by exact Hnot.
    unfold storage_service.index_by_id. rewrite get_index_from.
    cbn [Py.get]. unfold last_only.
    now destruct (rev (with_id k old)). }
  split; [exact Hlast|].
  intros Hu. rewrite Hlast.
  assert (Hshort : List.length (with_id k old) <= 1).
  { clear Hlast. unfold with_id. induction old as [|l old IH]; [cbn; lia|].
    cbn [map] in Hu. inversion Hu as [|? ? Hl Hu']; subst.
    cbn [filter]. destruct (String.eqb_spec (l_id l) k) as [E|E].
    - cbn [List.length].
      destruct (filter (fun l0 => String.eqb (l_id l0) k) old)
        as [|x rest] eqn:F; [cbn; lia|].
      exfalso. apply Hl.
      assert (Hx : In x (filter (fun l0 => String.eqb (l_id l0) k) old))
        by (rewrite F; now left).
      apply filter_In in Hx as [Hx Ex]. apply String.eqb_eq in Ex.
      rewrite E, <- Ex. now apply in_map.
    - now apply IH. }
  destruct (with_id k old) as [|x [|y l]]; try reflexivity.
  cbn in Hshort. lia.
Qed.

Lemma sync_keeps_other_lists_witness :
  exists result w',
    storage_service.sync_from_android
      "B" [team_v2] (world_with (mkStoreDocument [team_list; generated_list]
                                                 [] None))
    = (Ok result, w') /\
    with_id "G1" (stored_lists w') = [generated_list].
Proof.
  destruct (sync_keeps_other_lists
              (world_with (mkStoreDocument [team_list; generated_list] [] None))
              "B" [team_v2] "G1")
    as (result & w' & Hrun & Hlast & _).
  - cbn. intros [H|[]]. discriminate H.
  - exists result, w'. split; [exact Hrun|exact Hlast].
Defined.

(* ================================================================== *)
(** * More on the fan-out hub *)

Lemma list_in_In (x : WebSocket) (l : list WebSocket) :
  ConnectionManager.list_in x l = true <-> In x l.
Proof.
  unfold ConnectionManager.list_in. rewrite existsb_exists. split.
  - intros (y & Hy & E). apply Nat.eqb_eq in E. now subst.
  - intros H. exists x. split; [exact H|apply Nat.eqb_refl].
Qed.

Lemma list_remove_absent (x : WebSocket) (l : list WebSocket) :
  ~ In x l -> ConnectionManager.list_remove x l = l.
Proof.
  induction l as [|y l IH]; intros H; cbn; [reflexivity|].
  destruct (Nat.eqb_spec x y) as [->|E].
  - exfalso. apply H. now left.
  - f_equal. apply IH. intros H'. apply H. now right.
Qed.

Lemma list_remove_perm (x : WebSocket) (l : list WebSocket) :
  In x l -> Permutation l (x :: ConnectionManager.list_remove x l).
Proof.
  induction l as [|y l IH]; intros H; cbn; [destruct H|].
  destruct (Nat.eqb_spec x y) as [->|E]; [reflexivity|].
  destruct H as [->|H]; [contradiction|].
  rewrite (IH H) at 1. apply perm_swap.
Qed.

Lemma list_remove_snoc (x : WebSocket) (l : list WebSocket) :
  ~ In x l -> ConnectionManager.list_remove x (l ++ [x]) = l.
Proof.
  induction l as [|y l IH]; intros H; cbn.
  - now rewrite Nat.eqb_refl.
  - destruct (Nat.eqb_spec x y) as [->|E].
    + exfalso. apply H. now left.
    + f_equal. apply IH. intros H'. apply H. now right.
Qed.

Lemma filter_others_absent (x : WebSocket) (l : list WebSocket) :
  ~ In x l -> filter (fun c => negb (Nat.eqb c x)) l = l.
Proof.
  induction l as [|y l IH]; intros H; cbn; [reflexivity|].
  destruct (Nat.eqb_spec y x) as [->|E]; cbn.
  - exfalso. apply H. now left.
  - f_equal. apply IH. intros H'. apply H. now right.
Qed.

(** X6. [disconnect] never raises and takes one occurrence of the
    connection off the live list: a connection that is not registered
    leaves the list as it is, and on a list without repetitions the
    connection is gone afterwards, the others keep their order, and a
    second [disconnect] changes nothing. *)
Theorem disconnect_removes_once (w : World) (websocket : WebSocket) :
  exists w',
    ConnectionManager.disconnect websocket w = (Ok tt, w') /\
    (~ In websocket (active_connections w) ->
     active_connections w' = active_connections w) /\
    (In websocket (active_connections w) ->
     Permutation (active_connections w)
                 (websocket :: active_connections w')) /\
    (NoDup (active_connections w) ->
     ~ In websocket (active_connections w') /\
     active_connections w'
     = filter (fun c => negb (Nat.eqb c websocket)) (active_connections w) /\
     ConnectionManager.disconnect websocket w' = (Ok tt, w')) /\
    file w' = file w /\ wire w' = wire w /\ sends w' = sends w.
Proof.
  destruct w as [f clk t conns devs oracle n wr].
  unfold ConnectionManager.disconnect. world_simpl.
  assert (Hfilter : forall l, NoDup l -> In websocket l ->
            ConnectionManager.list_remove websocket l
            = filter (fun c => negb (Nat.eqb c websocket)) l).
  { induction l as [|y l IH]; intros Hnd Hin; [destruct Hin|].
    inversion Hnd as [|? ? Hy Hnd']; subst. cbn.
    rewrite (Nat.eqb_sym y websocket).
    destruct (Nat.eqb_spec websocket y) as [->|E]; cbn.
    - symmetry. now apply filter_others_absent.
    - f_equal. apply IH; [exact Hnd'|].
      destruct Hin; [congruence|assumption]. }
  destruct (ConnectionManager.list_in websocket conns) eqn:E.
  - apply list_in_In in E. eexists. split; [reflexivity|]. world_simpl.
    split; [intros H; contradiction|].
    split; [intros _; now apply list_remove_perm|].
    split; [|repeat split].
    intros Hnd. rewrite (Hfilter conns Hnd E).
    assert (Hgone : ~ In websocket
                      (filter (fun c => negb (Nat.eqb c websocket)) conns)).
    { intros H. apply filter_In in H as [_ H].
      now rewrite Nat.eqb_refl in H. }
    split; [exact Hgone|]. split; [reflexivity|].
    destruct (ConnectionManager.list_in
                websocket
                (filter (fun c => negb (Nat.eqb c websocket)) conns)) eqn:E';
      [|reflexivity].
    apply list_in_In in E'. contradiction.
  - assert (Hnot : ~ In websocket conns).
    { intros H. apply list_in_In in H. congruence. }
    eexists. split; [reflexivity|]. world_simpl.
    split; [reflexivity|].
    split; [intros H; contradiction|].
    split; [|repeat split].
    intros Hnd. split; [exact Hnot|]. split.
    + symmetry. now apply filter_others_absent.
    + now rewrite E.
Qed.

(** X7. [connect] registers a connection only when [accept] returns: an
    exception of [accept] reaches the caller and the live list is not
    touched. An accepted connection goes to the end of the live list; if
    it was not registered before, the list stays free of repetitions and
    a [disconnect] gives back the list as it was. *)
Theorem connect_then_disconnect (w : World) (websocket : WebSocket) :
  ~ In websocket (active_connections w) ->
  (forall e, ConnectionManager.connect (Some e) websocket w = (Raise e, w)) /\
  exists w1 w2,
    ConnectionManager.connect None websocket w = (Ok tt, w1) /\
    active_connections w1 = active_connections w ++ [websocket] /\
    (NoDup (active_connections w) -> NoDup (active_connections w1)) /\
    ConnectionManager.disconnect websocket w1 = (Ok tt, w2) /\
    active_connections w2 = active_connections w.
Proof.
  destruct w as [f clk t conns devs oracle n wr]. world_simpl. intros Hnew.
  split; [reflexivity|].
  unfold ConnectionManager.connect, ConnectionManager.disconnect. world_simpl.
  eexists. eexists. split; [reflexivity|]. world_simpl.
  split; [reflexivity|].
  split.
  { intros Hnd. apply NoDup_app; [exact Hnd|repeat constructor; cbn; tauto|].
    intros x Hx [<-|[]]. contradiction. }
  assert (E : ConnectionManager.list_in websocket (conns ++ [websocket]) = true).
  { apply list_in_In. apply in_or_app. right. now left. }
  rewrite E. split; [reflexivity|]. world_simpl.
  now apply list_remove_snoc.
Qed.

Lemma connect_then_disconnect_witness :
  exists w1 w2,
    ConnectionManager.connect None 4 three_subscribers = (Ok tt, w1) /\
    active_connections w1 = [1; 2; 3; 4] /\
    ConnectionManager.disconnect 4 w1 = (Ok tt, w2) /\
    active_connections w2 = [1; 2; 3].
Proof.
  destruct (connect_then_disconnect three_subscribers 4)
    as (_ & w1 & w2 & H1 & H2 & _ & H3 & H4).
  - cbn. intuition discriminate.
  - exists w1, w2. repeat split; assumption.
Defined.

Lemma survivors_casualties_perm oracle message cs :
  forall k,
    Permutation cs (survivors oracle k message cs
                      ++ casualties oracle k message cs).
Proof.
  induction cs as [|c cs IH]; intros k; cbn; [reflexivity|].
  destruct (oracle k c message); cbn.
  - rewrite (IH (S k)) at 1. apply Permutation_middle.
  - constructor. apply IH.
Qed.

Lemma remove_all_perm (fs : list WebSocket) :
  forall cs rest,
    Permutation cs (rest ++ fs) -> Permutation (remove_all fs cs) rest.
Proof.
  unfold remove_all.
  induction fs as [|x fs IH]; intros cs rest Hperm; cbn [fold_left].
  - now rewrite app_nil_r in Hperm.
  - assert (Hin : In x cs).
    { apply (Permutation_in x (Permutation_sym Hperm)).
      apply in_or_app. right. now left. }
    apply list_in_In in Hin as Hb. rewrite Hb. apply IH.
    apply (Permutation_cons_inv (a := x)).
    rewrite <- (list_remove_perm x cs Hin), Hperm.
    symmetry. apply Permutation_middle.
Qed.

Lemma survivors_all oracle message cs :
  forall k, casualties oracle k message cs = [] ->
            survivors oracle k message cs = cs.
Proof.
  induction cs as [|c cs IH]; intros k; cbn; [reflexivity|].
  destruct (oracle k c message); [discriminate|].
  intros H. f_equal. now apply IH.
Qed.

(** X8. On any live list, also one that repeats a connection, [broadcast]
    returns normally after one [send_json] per entry; the frames of the
    calls that returned go on the wire in serving order, and the live list
    that remains is a rearrangement of the entries whose call returned. So
    nobody is added, the list shrinks by the number of failed calls, a list
    without repetitions stays so, and when no call fails the list is left
    exactly as it was. The file, the clock and the device table are not
    touched. *)
Theorem broadcast_on_any_live_list (w : World) (message : Message) :
  let alive := survivors (send_outcome w) (sends w) message
                         (active_connections w) in
  let failed := casualties (send_outcome w) (sends w) message
                           (active_connections w) in
  exists w',
    ConnectionManager.broadcast message w = (Ok tt, w') /\
    Permutation (active_connections w') alive /\
    wire w' = wire w ++ map (fun c => (c, message)) alive /\
    sends w' = sends w + List.length (active_connections w) /\
    (forall c, In c (active_connections w') -> In c (active_connections w)) /\
    List.length (active_connections w') + List.length failed
    = List.length (active_connections w) /\
    (NoDup (active_connections w) -> NoDup (active_connections w')) /\
    (failed = [] -> active_connections w' = active_connections w) /\
    file w' = file w /\ ticks w' = ticks w /\
    connected_devices w' = connected_devices w.
Proof.
  destruct w as [f clk t conns devs oracle n wr]. world_simpl. cbv zeta.
  rewrite broadcast_run. eexists. split; [reflexivity|]. world_simpl.
  pose proof (survivors_casualties_perm oracle message conns n) as Hsplit.
  pose proof (remove_all_perm _ _ _ Hsplit) as Hperm.
  split; [exact Hperm|]. split; [reflexivity|]. split; [reflexivity|].
  split.
  { intros c Hc. apply (Permutation_in c Hperm) in Hc.
    eapply survivors_subset; exact Hc. }
  split.
  { rewrite (Permutation_length Hperm), (Permutation_length Hsplit).
    now rewrite length_app. }
  split.
  { intros Hnd. apply (Permutation_NoDup (Permutation_sym Hperm)).
    apply (Permutation_NoDup Hsplit) in Hnd.
    now apply NoDup_app_remove_r in Hnd. }
  split; [|repeat split].
  intros Hnone. rewrite Hnone. reflexivity.
Qed.

Lemma notify_data_change_exact f clk t conns devs oracle n wr action details :
  ConnectionManager.notify_data_change action details
    (mkWorld f clk t conns devs oracle n wr)
  = (Ok tt,
     mkWorld f clk (S t)
       (remove_all
          (casualties oracle n (data_change action details (clk t)) conns)
          conns)
       devs oracle (n + List.length conns)
       (wr ++ map (fun c => (c, data_change action details (clk t)))
                  (survivors oracle n (data_change action details (clk t))
                             conns))).
Proof.
  unfold ConnectionManager.notify_data_change, bind, now. world_simpl.
  now rewrite broadcast_run.
Qed.

Lemma notify_sync_exact f clk t conns devs oracle n wr device lc mc :
  ConnectionManager.notify_sync device lc mc
    (mkWorld f clk t conns devs oracle n wr)
  = (Ok tt,
     mkWorld f clk (S (S t))
       (remove_all
          (casualties oracle n (MsgSync device lc mc (isoformat (clk (S t))))
                      conns)
          conns)
       (Py.set device (isoformat (clk t)) devs)
       oracle (n + List.length conns)
       (wr ++ map (fun c => (c, MsgSync device lc mc (isoformat (clk (S t)))))
                  (survivors oracle n
                             (MsgSync device lc mc (isoformat (clk (S t))))
                             conns))).
Proof.
  unfold ConnectionManager.notify_sync, bind, now. world_simpl.
  now rewrite broadcast_run.
Qed.

(** X9. [notify_sync] files the device under the first clock reading of
    the call, replacing what the table held for it and leaving the other
    devices alone, and then broadcasts one [sync] event, stamped with the
    second reading, that carries the two counts it was given: every
    subscriber whose [send_json] returns gets exactly that event. *)
Theorem notify_sync_records_device (w : World) (device : string)
    (lists_count members_count : nat) :
  let event := MsgSync device lists_count members_count
                       (isoformat (clock w (S (ticks w)))) in
  exists w',
    ConnectionManager.notify_sync device lists_count members_count w
    = (Ok tt, w') /\
    Py.get device (connected_devices w')
    = Some (isoformat (clock w (ticks w))) /\
    (forall other, other <> device ->
       Py.get other (connected_devices w')
       = Py.get other (connected_devices w)) /\
    wire w'
    = wire w ++ map (fun c => (c, event))
                    (survivors (send_outcome w) (sends w) event
                               (active_connections w)) /\
    ticks w' = ticks w + 2 /\
    file w' = file w.
Proof.
  destruct w as [f clk t conns devs oracle n wr]. world_simpl. cbv zeta.
  rewrite notify_sync_exact. eexists. split; [reflexivity|]. world_simpl.
  split; [apply get_set_same|].
  split; [intros other Hne; now apply get_set_other|].
  split; [reflexivity|]. split; [lia|reflexivity].
Qed.

(* ================================================================== *)
(** * More on the REST handlers *)

Lemma create_list_exact f clk t conns devs oracle n wr (b : BroadcastList) :
  main.create_list b (mkWorld f clk t conns devs oracle n wr)
  = let log := new_log clk (S t)
                 ("Created list '" ++ name b ++ "'")%string "success"
                 (Some (Py.str_of_nat (List.length (members b))
                          ++ " members")%string) in
    let event := data_change "list_created" (name b) (clk (S (S (S t)))) in
    (Ok (main.mkResponse true (Some b) None),
     mkWorld
       (Some (mkStoreDocument
                (doc_lists (doc_of f) ++ [dict_of b])
                (firstn 100 (log :: doc_logs (doc_of f)))
                (Some (isoformat (clk t)))))
       clk (S (S (S (S t))))
       (remove_all (casualties oracle n event conns) conns)
       devs oracle (n + List.length conns)
       (wr ++ map (fun c => (c, event)) (survivors oracle n event conns))).
Proof.
  unfold main.create_list, bind at 1. rewrite get_lists_run.
  unfold bind at 1. rewrite save_lists_run.
  unfold bind at 1. rewrite add_log_run.
  unfold bind. rewrite notify_data_change_exact.
  reflexivity.
Qed.

(** X10. [create_list] returns the list it was given and stores its
    fields, without any sync stamp, after the lists already there; it sets
    [last_sync] to the first clock reading of the call, puts the entry
    "Created list '<name>'" with the member count in front of the log, and
    sends one [list_created] event with the list's name to every
    subscriber whose [send_json] returns. *)
Theorem create_list_appends (w : World) (b : BroadcastList) :
  let event := data_change "list_created" (name b)
                           (clock w (ticks w + 3)) in
  exists log w',
    main.create_list b w = (Ok (main.mkResponse true (Some b) None), w') /\
    stored_lists w' = stored_lists w ++ [dict_of b] /\
    (l_synced_from (dict_of b), l_synced_at (dict_of b)) = (None, None) /\
    doc_last_sync (document w') = Some (isoformat (clock w (ticks w))) /\
    stored_logs w' = log :: firstn 99 (stored_logs w) /\
    entry_fields log
    = (("Created list '" ++ name b ++ "'")%string, "success",
       Some (Py.str_of_nat (List.length (members b)) ++ " members")%string) /\
    wire w'
    = wire w ++ map (fun c => (c, event))
                    (survivors (send_outcome w) (sends w) event
                               (active_connections w)).
Proof.
  destruct w as [f clk t conns devs oracle n wr]. world_simpl. cbv zeta.
  rewrite create_list_exact. cbv zeta.
  eexists. eexists. split; [reflexivity|].
  unfold stored_lists, stored_logs, document. world_simpl.
  cbn [doc_of doc_lists doc_logs doc_last_sync].
  rewrite firstn_cons.
  replace (t + 3) with (S (S (S t))) by lia.
  repeat split.
Qed.

Lemma delete_list_exact f clk t conns devs oracle n wr (list_id : string) :
  In list_id (map l_id (doc_lists (doc_of f))) ->
  main.delete_list list_id (mkWorld f clk t conns devs oracle n wr)
  = let kept := filter (fun l => negb (String.eqb (l_id l) list_id))
                       (doc_lists (doc_of f)) in
    let log := new_log clk (S t) ("Deleted list " ++ list_id)%string
                       "success" None in
    let event :=
      data_change "list_deleted"
        (main.name_or (main.first_name_with_id list_id (doc_lists (doc_of f)))
                      list_id)
        (clk (S (S (S t)))) in
    (Ok (main.mkResponse true None (Some "List deleted")),
     mkWorld
       (Some (mkStoreDocument kept
                (firstn 100 (log :: doc_logs (doc_of f)))
                (Some (isoformat (clk t)))))
       clk (S (S (S (S t))))
       (remove_all (casualties oracle n event conns) conns)
       devs oracle (n + List.length conns)
       (wr ++ map (fun c => (c, event)) (survivors oracle n event conns))).
Proof.
  intros Hin.
  unfold main.delete_list, bind at 1. rewrite get_lists_run.
  destruct (Nat.eqb_spec
              (List.length (filter (fun l => negb (String.eqb (l_id l) list_id))
                                   (doc_lists (doc_of f))))
              (List.length (doc_lists (doc_of f)))) as [E|E].
  - exfalso. apply filter_same_length in E.
    apply in_map_iff in Hin as (l & Hl & Hin).
    rewrite <- E in Hin. apply filter_In in Hin as [_ Hin].
    rewrite Hl, String.eqb_refl in Hin. discriminate Hin.
  - unfold bind at 1. rewrite save_lists_run.
    unfold bind at 1. rewrite add_log_run.
    unfold bind. rewrite notify_data_change_exact.
    reflexivity.
Qed.

(** X11. Deleting an id that the store holds succeeds with the message
    "List deleted": every stored list with that id is removed, also when
    several carry it, and the other lists stay in their order. The call
    sets [last_sync], logs "Deleted list <id>", and sends one
    [list_deleted] event that names the first deleted list, or gives the
    id when that name is empty. *)
Theorem delete_list_found (w : World) (list_id : string) :
  In list_id (map l_id (stored_lists w)) ->
  let event :=
    data_change "list_deleted"
      (main.name_or (main.first_name_with_id list_id (stored_lists w)) list_id)
      (clock w (ticks w + 3)) in
  exists log w',
    main.delete_list list_id w
    = (Ok (main.mkResponse true None (Some "List deleted")), w') /\
    stored_lists w'
    = filter (fun l => negb (String.eqb (l_id l) list_id)) (stored_lists w) /\
    ~ In list_id (map l_id (stored_lists w')) /\
    List.length (stored_lists w') < List.length (stored_lists w) /\
    doc_last_sync (document w') = Some (isoformat (clock w (ticks w))) /\
    stored_logs w' = log :: firstn 99 (stored_logs w) /\
    entry_fields log = (("Deleted list " ++ list_id)%string, "success", None) /\
    wire w'
    = wire w ++ map (fun c => (c, event))
                    (survivors (send_outcome w) (sends w) event
                               (active_connections w)).
Proof.
  destruct w as [f clk t conns devs oracle n wr].
  unfold stored_lists, stored_logs, document. world_simpl. intros Hin.
  cbv zeta. rewrite (delete_list_exact _ _ _ _ _ _ _ _ _ Hin). cbv zeta.
  eexists. eexists. split; [reflexivity|]. world_simpl.
  cbn [doc_of doc_lists doc_logs doc_last_sync].
  rewrite firstn_cons.
  replace (t + 3) with (S (S (S t))) by lia.
  split; [reflexivity|].
  split.
  { intros H. apply in_map_iff in H as (l & Hl & H).
    apply filter_In in H as [_ H].
    rewrite Hl, String.eqb_refl in H. discriminate H. }
  split.
  { pose proof (filter_length_le
                  (fun l => negb (String.eqb (l_id l) list_id))
                  (doc_lists (doc_of f))) as Hle.
    destruct (Nat.eq_dec
                (List.length (filter (fun l => negb (String.eqb (l_id l) list_id))
                                     (doc_lists (doc_of f))))
                (List.length (doc_lists (doc_of f)))) as [E|E]; [|lia].
    exfalso. apply filter_same_length in E.
    apply in_map_iff in Hin as (l & Hl & Hin).
    rewrite <- E in Hin. apply filter_In in Hin as [_ Hin].
    rewrite Hl, String.eqb_refl in Hin. discriminate Hin. }
  repeat split.
Qed.

Lemma delete_list_found_witness :
  exists w',
    main.delete_list "L1" busy_world
    = (Ok (main.mkResponse true None (Some "List deleted")), w') /\
    map l_id (stored_lists w') = ["L2"] /\
    wire w' = [(7, MsgDataChange "list_deleted" "Team" "3")].
Proof.
  destruct (delete_list_found busy_world "L1")
    as (log & w' & Hrun & Hlists & _ & _ & _ & _ & _ & Hwire).
  - cbn. now left.
  - exists w'. split; [exact Hrun|].
    split; [now rewrite Hlists|exact Hwire].
Defined.

(** X12. Creating a list whose id the store does not hold and then
    deleting that id gives back the stored lists as they were. *)
Theorem create_then_delete (w : World) (b : BroadcastList) :
  ~ In (id b) (map l_id (stored_lists w)) ->
  exists w1 w2,
    main.create_list b w = (Ok (main.mkResponse true (Some b) None), w1) /\
    main.delete_list (id b) w1
    = (Ok (main.mkResponse true None (Some "List deleted")), w2) /\
    stored_lists w2 = stored_lists w.
Proof.
  destruct w as [f clk t conns devs oracle n wr].
  unfold stored_lists, document. world_simpl. intros Hnew.
  rewrite create_list_exact. cbv zeta.
  eexists. eexists. split; [reflexivity|].
  rewrite delete_list_exact.
  - cbv zeta. split; [reflexivity|]. world_simpl. cbn [doc_of doc_lists].
    rewrite filter_app. cbn [filter dict_of l_id].
    rewrite String.eqb_refl. cbn [negb]. rewrite app_nil_r.
    now apply filter_other_ids.
  - cbn [doc_of doc_lists]. rewrite map_app. apply in_or_app. right. now left.
Qed.

Lemma create_then_delete_witness :
  exists w1 w2,
    main.create_list (mkBroadcastList "L3" "Family" [] "2024-03-03 00:00:00"
                                      false)
                     busy_world
    = (Ok (main.mkResponse
             true
             (Some (mkBroadcastList "L3" "Family" [] "2024-03-03 00:00:00"
                                    false))
             None),
       w1) /\
    main.delete_list "L3" w1
    = (Ok (main.mkResponse true None (Some "List deleted")), w2) /\
    stored_lists w2 = stored_lists busy_world.
Proof.
  apply (create_then_delete
           busy_world
           (mkBroadcastList "L3" "Family" [] "2024-03-03 00:00:00" false)).
  cbn. intuition discriminate.
Defined.

Lemma total_members_sum (ls : list BroadcastList) :
  main.total_members ls
  = list_sum (map (fun l => List.length (members l)) ls).
Proof.
  unfold main.total_members.
  assert (H : forall acc,
            fold_left (fun acc l => acc + List.length (members l)) ls acc
            = acc + list_sum (map (fun l => List.length (members l)) ls)).
  { induction ls as [|l ls IH]; intros acc; cbn [fold_left map].
    - cbn. lia.
    - rewrite IH. unfold list_sum. cbn [fold_right]. lia. }
  apply H.
Qed.

Lemma sync_handler_exact f clk t conns devs oracle n wr (request : SyncRequest) :
  main.sync_from_android request (mkWorld f clk t conns devs oracle n wr)
  = let incoming := map dict_of (lists request) in
    let k := List.length incoming in
    let stored :=
      Py.values (merged clk t (device_id request) incoming
                        (storage_service.index_by_id (doc_lists (doc_of f)))) in
    let result := storage_service.mkSyncResult
                    k (List.length stored) (Some (isoformat (clk (t + k)))) in
    let log := new_log clk (S (t + k))
                 ("Synced " ++ Py.str_of_nat k ++ " lists from Android")%string
                 "success"
                 (Some ("Device: " ++ device_id request)%string) in
    let event := MsgSync (device_id request) k
                         (main.total_members (lists request))
                         (isoformat (clk (S (S (S (S (t + k))))))) in
    (Ok (main.mkResponse true (Some result) None),
     mkWorld
       (Some (mkStoreDocument stored
                (firstn 100 (log :: doc_logs (doc_of f)))
                (Some (isoformat (clk (t + k))))))
       clk (S (S (S (S (S (t + k))))))
       (remove_all (casualties oracle n event conns) conns)
       (Py.set (device_id request) (isoformat (clk (S (S (S (t + k)))))) devs)
       oracle (n + List.length conns)
       (wr ++ map (fun c => (c, event)) (survivors oracle n event conns))).
Proof.
  unfold main.sync_from_android, try_except, bind at 1.
  rewrite sync_from_android_run. cbv zeta.
  unfold bind at 1. rewrite add_log_run.
  unfold bind. cbn [storage_service.synced].
  rewrite notify_sync_exact. reflexivity.
Qed.

(** X13. The sync handler answers with the result of the merge, puts the
    entry "Synced <n> lists from Android" for the device in front of the
    log, files the device in the device table, and sends every subscriber
    whose [send_json] returns one [sync] event with the number of incoming
    lists and the total number of their members. *)
Theorem sync_handler_reports (w : World) (request : SyncRequest) :
  let k := List.length (lists request) in
  let event :=
    MsgSync (device_id request) k
            (list_sum (map (fun l => List.length (members l)) (lists request)))
            (isoformat (clock w (ticks w + k + 4))) in
  exists result log w',
    main.sync_from_android request w
    = (Ok (main.mkResponse true (Some result) None), w') /\
    storage_service.synced result = k /\
    storage_service.total result = List.length (stored_lists w') /\
    storage_service.sr_timestamp result = doc_last_sync (document w') /\
    stored_logs w' = log :: firstn 99 (stored_logs w) /\
    entry_fields log
    = (("Synced " ++ Py.str_of_nat k ++ " lists from Android")%string,
       "success", Some ("Device: " ++ device_id request)%string) /\
    Py.get (device_id request) (connected_devices w')
    = Some (isoformat (clock w (ticks w + k + 3))) /\
    wire w'
    = wire w ++ map (fun c => (c, event))
                    (survivors (send_outcome w) (sends w) event
                               (active_connections w)).
Proof.
  destruct w as [f clk t conns devs oracle n wr]. world_simpl. cbv zeta.
  rewrite sync_handler_exact. cbv zeta.
  rewrite <- total_members_sum, length_map.
  replace (t + List.length (lists request) + 4)
    with (S (S (S (S (t + List.length (lists request)))))) by lia.
  replace (t + List.length (lists request) + 3)
    with (S (S (S (t + List.length (lists request))))) by lia.
  eexists. eexists. eexists. split; [reflexivity|].
  unfold stored_lists, stored_logs, document. world_simpl.
  cbn [doc_of doc_lists doc_logs doc_last_sync storage_service.synced
       storage_service.total storage_service.sr_timestamp].
  rewrite firstn_cons, get_set_same.
  repeat split.
Qed.

(* ================================================================== *)
(** * More on the common-member aggregator *)

Lemma filter_idem {A} (p : A -> bool) (l : list A) :
  filter p (filter p l) = filter p l.
Proof.
  induction l as [|x l IH]; cbn; [reflexivity|].
  destruct (p x) eqn:E; cbn; [rewrite E; now f_equal|exact IH].
Qed.

(** X14. Lists flagged as auto-generated, under either spelling of the
    flag, take no part in the aggregation: the answer for a store is the
    answer for its source lists alone, so adding or dropping
    auto-generated lists changes nothing. *)
Theorem auto_generated_lists_ignored (order : Py.SetOrder)
    (lists : list StoredList) :
  main.find_common_members lists
  = main.find_common_members (filter main.is_source lists) /\
  (forall extra,
     forallb (fun l => negb (main.is_source l)) extra = true ->
     main.find_common_members (lists ++ extra)
     = main.find_common_members lists /\
     main.find_common_members (extra ++ lists)
     = main.find_common_members lists).
Proof.
  assert (Hsrc : forall ls,
            main.find_common_members ls
            = main.find_common_members (filter main.is_source ls)).
  { intros ls. unfold main.find_common_members. now rewrite filter_idem. }
  split; [apply Hsrc|].
  intros extra Hextra.
  assert (Hnone : filter main.is_source extra = []).
  { induction extra as [|l extra IH]; [reflexivity|].
    cbn in Hextra |- *. apply andb_prop in Hextra as [Hl Hextra].
    destruct (main.is_source l); [discriminate Hl|now apply IH]. }
  split.
  - rewrite (Hsrc (lists ++ extra)), (Hsrc lists), filter_app, Hnone.
    now rewrite app_nil_r.
  - rewrite (Hsrc (extra ++ lists)), (Hsrc lists), filter_app, Hnone.
    reflexivity.
Qed.

(** X15. The member fields an emitted element shows are those of the
    first member met under its key, in the order of the source lists and
    of the members inside a list; later members with the same key only
    add to the count and to the list names. *)
Theorem common_member_is_first_seen (order : Py.SetOrder)
    (lists : list StoredList) (cm : main.CommonMember) :
  (exists d,
     main.data (main.find_common_members lists) = Some d /\
     In cm (main.common_members d)) ->
  exists list_name later,
    tally (emitted_key cm) (occurrences (filter main.is_source lists))
    = (main.cm_member cm, list_name) :: later /\
    main.appears_in cm = S (List.length later).
Proof.
  intros (d & Hd & Hcm).
  unfold main.find_common_members in Hd.
  destruct (Nat.ltb_spec (List.length (filter main.is_source lists)) 2).
  { cbn [main.data] in Hd. injection Hd as <-. destruct Hcm. }
  cbn [main.data] in Hd. injection Hd as <-. cbn [main.common_members] in Hcm.
  apply (Permutation_in _ (sort_desc_perm _)) in Hcm.
  apply In_common_of in Hcm as (k & info & Hin & _ & ->).
  destruct (entry_of_count_members _ k info Hin)
    as ([m nm] & later & T & -> & Hk & _).
  unfold emitted_key. cbn [main.cm_member main.member main.appears_in
                           main.count fst] in *.
  rewrite Hk, T. now exists nm, later.
Qed.

Lemma common_member_is_first_seen_witness :
  exists list_name later,
    tally "5551234567" (occurrences prefixed_phones)
    = (bob "5551234567", list_name) :: later /\
    2 = S (List.length later).
Proof.
  apply (common_member_is_first_seen
           first_seen_order prefixed_phones
           (main.mkCommonMember (bob "5551234567") 2 ["Team"; "Friends"])).
  eexists. split; [reflexivity|]. cbn. now left.
Defined.

Lemma note_idem (k : string) (seen : list string) :
  note k (note k seen) = note k seen.
Proof.
  unfold note at 2.
  destruct (existsb (String.eqb k) seen) eqn:E.
  - unfold note. now rewrite E.
  - unfold note.
    assert (H : existsb (String.eqb k) (seen ++ [k]) = true).
    { apply existsb_eqb_In. apply in_or_app. right. now left. }
    now rewrite H, E.
Qed.

Lemma keys_count_member_note (lst : StoredList) (d : Py.dict main.Info)
    (m : Contact) :
  Py.keys (main.count_member lst d m)
  = if Py.truthy (main.member_key m)
    then note (main.member_key m) (Py.keys d)
    else Py.keys d.
Proof.
  unfold main.count_member.
  destruct (Py.truthy (main.member_key m)); [|reflexivity].
  unfold Py.mem.
  destruct (Py.get (main.member_key m) d) as [info|] eqn:G; cbn [negb].
  - rewrite G. apply keys_set_note.
  - rewrite get_set_same. now rewrite !keys_set_note, note_idem.
Qed.

Lemma keys_inner_first_seen (lst : StoredList) (ms : list Contact) :
  forall d,
    Py.keys (fold_left (main.count_member lst) ms d)
    = first_seen_from (Py.keys d)
        (map (fun o => main.member_key (fst o)) (occurrences_in lst ms)).
Proof.
  unfold first_seen_from, occurrences_in.
  induction ms as [|m ms IH]; intros d; cbn [fold_left filter map].
  - reflexivity.
  - rewrite IH, keys_count_member_note.
    now destruct (Py.truthy (main.member_key m)).
Qed.

Lemma keys_outer_first_seen (source_lists : list StoredList) :
  forall d,
    Py.keys (fold_left (fun member_counts lst =>
                          fold_left (main.count_member lst) (l_members lst)
                                    member_counts)
                       source_lists d)
    = first_seen_from (Py.keys d)
        (map (fun o => main.member_key (fst o)) (occurrences source_lists)).
Proof.
  unfold occurrences.
  induction source_lists as [|lst ls IH]; intros d; cbn [fold_left flat_map].
  - reflexivity.
  - rewrite IH, keys_inner_first_seen. unfold first_seen_from.
    now rewrite map_app, fold_left_app.
Qed.

(** The keys of the dictionary are the keys of the occurrences, each at
    its first appearance. *)
Lemma keys_count_members_first_seen (source_lists : list StoredList) :
  Py.keys (main.count_members source_lists)
  = first_seen (map (fun o => main.member_key (fst o))
                    (occurrences source_lists)).
Proof. apply keys_outer_first_seen. Qed.

Lemma filter_insert_desc (n : nat) (x : main.CommonMember)
    (l : list main.CommonMember) :
  filter (fun cm => main.appears_in cm =? n) (main.insert_desc x l)
  = filter (fun cm => main.appears_in cm =? n) (x :: l).
Proof.
  induction l as [|y l IH]; cbn [main.insert_desc]; [reflexivity|].
  destruct (Nat.ltb_spec (main.appears_in x) (main.appears_in y)) as [Hlt|Hge];
    [|reflexivity].
  cbn [filter] in *. rewrite IH.
  destruct (Nat.eqb_spec (main.appears_in x) n) as [Ex|Ex]; [|reflexivity].
  destruct (Nat.eqb_spec (main.appears_in y) n) as [Ey|Ey]; [lia|reflexivity].
Qed.

(** Sorting keeps the elements of one rank in the order they had. *)
Lemma filter_sort_desc (n : nat) (l : list main.CommonMember) :
  filter (fun cm => main.appears_in cm =? n) (main.sort_desc l)
  = filter (fun cm => main.appears_in cm =? n) l.
Proof.
  unfold main.sort_desc. induction l as [|x l IH]; cbn [fold_right].
  - reflexivity.
  - rewrite filter_insert_desc. cbn [filter]. now rewrite IH.
Qed.

Lemma emitted_keys_of_rank {order : Py.SetOrder} (n : nat)
    (rank : string -> nat) (d : Py.dict main.Info) :
  2 <= n ->
  (forall k info, In (k, info) d ->
     main.member_key (main.member info) = k /\ main.count info = rank k) ->
  map emitted_key
      (filter (fun cm => main.appears_in cm =? n) (main.common_of d))
  = filter (fun k => rank k =? n) (Py.keys d).
Proof.
  intros Hn. unfold main.common_of, Py.keys.
  induction d as [|[k info] d IH]; intros Hd; cbn [filter map fst snd].
  - reflexivity.
  - destruct (Hd k info (or_introl eq_refl)) as [Hk Hc].
    assert (IH' := IH (fun k' i' H => Hd k' i' (or_intror H))).
    rewrite <- Hc.
    destruct (Nat.leb_spec 2 (main.count info)) as [H2|H2];
      cbn [filter map main.appears_in fst snd].
    + destruct (main.count info =? n); [|exact IH'].
      cbn [map]. unfold emitted_key at 1. cbn [main.cm_member].
      now rewrite Hk, IH'.
    + destruct (Nat.eqb_spec (main.count info) n); [lia|exact IH'].
Qed.

(** X16. Among the emitted elements that share one [appears_in], the
    order is the order in which their keys were first met while walking
    the source lists: the sort by [appears_in] is stable. *)
Theorem ties_in_first_seen_order (order : Py.SetOrder)
    (lists : list StoredList) (n : nat) :
  2 <= List.length (filter main.is_source lists) ->
  2 <= n ->
  exists d,
    main.data (main.find_common_members lists) = Some d /\
    map emitted_key
        (filter (fun cm => main.appears_in cm =? n) (main.common_members d))
    = filter (fun k => occurrence_count k (filter main.is_source lists) =? n)
             (first_seen
                (map (fun o => main.member_key (fst o))
                     (occurrences (filter main.is_source lists)))).
Proof.
  intros Hlen Hn.
  unfold main.find_common_members.
  destruct (Nat.ltb_spec (List.length (filter main.is_source lists)) 2);
    [lia|].
  eexists. split; [reflexivity|]. cbn [main.common_members].
  rewrite filter_sort_desc, <- keys_count_members_first_seen.
  apply emitted_keys_of_rank; [exact Hn|].
  intros k info Hin.
  destruct (entry_of_count_members _ k info Hin)
    as (occ & later & T & -> & Hk & _).
  split; [exact Hk|]. unfold occurrence_count. now rewrite T.
Qed.

Lemma ties_in_first_seen_order_witness :
  exists d,
    main.data (main.find_common_members (order := first_seen_order)
                                        prefixed_phones) = Some d /\
    map emitted_key
        (filter (fun cm => main.appears_in cm =? 2) (main.common_members d))
    = filter (fun k => occurrence_count k prefixed_phones =? 2)
             (first_seen
                (map (fun o => main.member_key (fst o))
                     (occurrences prefixed_phones))).
Proof.
  apply (ties_in_first_seen_order first_seen_order prefixed_phones 2).
  - cbn. lia.
  - lia.
Defined.

(* ================================================================== *)
(** * Strings *)

Lemma str_length_app (a b : string) :
  String.length (a ++ b) = String.length a + String.length b.
Proof. induction a as [|c a IH]; cbn; [reflexivity|now rewrite IH]. Qed.

Lemma substring_skip (p s : string) (m : nat) :
  substring (String.length p) m (p ++ s) = substring 0 m s.
Proof. induction p as [|c p IH]; cbn; [reflexivity|exact IH]. Qed.

Lemma substring_take (s t : string) :
  substring 0 (String.length s) (s ++ t) = s.
Proof.
  induction s as [|c s IH]; cbn.
  - now destruct t.
  - now rewrite IH.
Qed.

Lemma substring_whole (s : string) : substring 0 (String.length s) s = s.
Proof.
  induction s as [|c s IH]; cbn; [reflexivity|now rewrite IH].
Qed.

(** X17. For a member with a phone, whatever precedes the last ten
    characters of the phone plays no part in the key: two phones that end
    in the same ten characters have the same key, namely those ten
    characters. A phone of at most ten characters is its own key. *)
Theorem phone_key_folds_prefix (m1 m2 : Contact) (pre1 pre2 suffix : string) :
  c_phone m1 = (pre1 ++ suffix)%string ->
  c_phone m2 = (pre2 ++ suffix)%string ->
  String.length suffix = 10 ->
  main.member_key m1 = suffix /\
  main.member_key m2 = suffix /\
  (forall m, c_phone m <> EmptyString -> String.length (c_phone m) <= 10 ->
             main.member_key m = c_phone m).
Proof.
  intros H1 H2 Hlen.
  assert (Hkey : forall m pre, c_phone m = (pre ++ suffix)%string ->
                               main.member_key m = suffix).
  { intros m pre Hm. unfold main.member_key. rewrite Hm.
    assert (Ht : Py.truthy (pre ++ suffix) = true).
    { destruct pre; [|reflexivity]. destruct suffix; [discriminate Hlen|].
      reflexivity. }
    rewrite Ht. unfold Py.last_chars. rewrite str_length_app, Hlen.
    destruct (Nat.leb_spec (String.length pre + 10) 10) as [Hle|Hgt].
    - destruct pre; [reflexivity|cbn in Hle; lia].
    - replace (String.length pre + 10 - 10) with (String.length pre) by lia.
      rewrite substring_skip, <- Hlen. apply substring_whole. }
  split; [exact (Hkey m1 pre1 H1)|]. split; [exact (Hkey m2 pre2 H2)|].
  intros m Hne Hshort. unfold main.member_key, Py.last_chars.
  destruct (c_phone m) as [|c p] eqn:E; [contradiction|].
  cbn [Py.truthy].
  destruct (Nat.leb_spec (String.length (String c p)) 10); [reflexivity|lia].
Qed.

Lemma phone_key_folds_prefix_witness :
  main.member_key (bob "+15551234567") = "5551234567" /\
  main.member_key (bob "0015551234567") = "5551234567".
Proof.
  destruct (phone_key_folds_prefix
              (bob "+15551234567") (bob "0015551234567") "+1" "001"
              "5551234567" eq_refl eq_refl eq_refl) as (H1 & H2 & _).
  split; [exact H1|exact H2].
Defined.


Lemma lower_char_space (c : ascii) :
  Py.is_space c = true -> Py.lower_char c = c.
Proof.
  unfold Py.is_space, Py.lower_char. intros H.
  destruct (Nat.leb_spec 65 (nat_of_ascii c)) as [H65|H65]; [|reflexivity].
  exfalso.
  apply orb_prop in H as [H|H].
  - apply orb_prop in H as [H|H]; apply andb_prop in H as [_ H];
      apply Nat.leb_le in H; lia.
  - apply Nat.eqb_eq in H. lia.
Qed.

Lemma lower_blank (s : string) : blank s = true -> Py.lower s = s.
Proof.
  induction s as [|c s IH]; cbn; [reflexivity|].
  intros H. apply andb_prop in H as [Hc Hs].
  now rewrite (lower_char_space c Hc), IH.
Qed.




Lemma lstrip_blank (r : string) : blank r = true -> Py.lstrip r = EmptyString.
Proof.
  induction r as [|c r IH]; cbn; [reflexivity|].
  intros H. apply andb_prop in H as [Hc Hr]. rewrite Hc. now apply IH.
Qed.






Lemma nameless_key (m : Contact) :
  c_phone m = EmptyString -> blank (c_name m) = true ->
  main.member_key m = EmptyString.
Proof.
  intros P B. unfold main.member_key. rewrite P. cbn [Py.truthy].
  rewrite (lower_blank _ B). unfold Py.strip.
  now rewrite (lstrip_blank _ B).
Qed.

Lemma fold_left_swap_one {A B} (g : A -> B -> A) (pre post : list B)
    (x y : B) :
  (forall a, g a x = g a y) ->
  forall a, fold_left g (pre ++ x :: post) a = fold_left g (pre ++ y :: post) a.
Proof.
  intros H a. rewrite !fold_left_app. cbn [fold_left]. now rewrite H.
Qed.

(** X19. A member with neither a phone nor a name (the name empty or
    white space only) is not counted at all: the dictionary is left as it
    was, and the answer of the aggregator is the same with and without
    that member in a list. *)
Theorem nameless_member_not_counted (order : Py.SetOrder) (m : Contact)
    (pre post : list StoredList) (lst : StoredList) (ms1 ms2 : list Contact) :
  c_phone m = EmptyString ->
  blank (c_name m) = true ->
  (forall d, main.count_member lst d m = d) /\
  main.find_common_members
    (pre ++ with_members lst (ms1 ++ m :: ms2) :: post)
  = main.find_common_members (pre ++ with_members lst (ms1 ++ ms2) :: post).
Proof.
  intros P B.
  assert (Hskip : forall l d, main.count_member l d m = d).
  { intros l d. unfold main.count_member.
    now rewrite (nameless_key m P B). }
  split; [apply Hskip|].
  unfold main.find_common_members.
  rewrite !filter_app. cbn [filter].
  replace (main.is_source (with_members lst (ms1 ++ m :: ms2)))
    with (main.is_source lst) by reflexivity.
  replace (main.is_source (with_members lst (ms1 ++ ms2)))
    with (main.is_source lst) by reflexivity.
  destruct (main.is_source lst); [|reflexivity].
  rewrite !length_app. cbn [List.length].
  assert (Hcount :
    main.count_members
      (filter main.is_source pre
         ++ with_members lst (ms1 ++ m :: ms2) :: filter main.is_source post)
    = main.count_members
        (filter main.is_source pre
           ++ with_members lst (ms1 ++ ms2) :: filter main.is_source post)).
  { unfold main.count_members. apply fold_left_swap_one. intros d.
    cbn [with_members l_members].
    rewrite !fold_left_app. cbn [fold_left].
    replace (main.count_member (with_members lst (ms1 ++ m :: ms2))
               (fold_left
                  (main.count_member (with_members lst (ms1 ++ m :: ms2)))
                  ms1 d) m)
      with (fold_left (main.count_member (with_members lst (ms1 ++ m :: ms2)))
                      ms1 d) by (symmetry; apply Hskip).
    reflexivity. }
  now rewrite Hcount.
Qed.

Lemma nameless_member_not_counted_witness :
  main.find_common_members
    (order := first_seen_order)
    ([] ++ with_members team_list ([bob "5551234567"]
                                     ++ mkContact "9" "  " EmptyString None :: [])
        :: [source_list "L2" "Friends" [bob "+15551234567"]])
  = main.find_common_members
      (order := first_seen_order)
      ([] ++ with_members team_list ([bob "5551234567"] ++ [])
          :: [source_list "L2" "Friends" [bob "+15551234567"]]).
Proof.
  apply (nameless_member_not_counted
           first_seen_order (mkContact "9" "  " EmptyString None) []
           [source_list "L2" "Friends" [bob "+15551234567"]] team_list
           [bob "5551234567"] [] eq_refl eq_refl).
Defined.

(* ================================================================== *)
(** * The JSON object inside a reply *)

Section JsonMatch.
Import gemini_service.

Lemma str_app_assoc (a b c : string) :
  ((a ++ b) ++ c)%string = (a ++ b ++ c)%string.
Proof. induction a as [|x a IH]; cbn; [reflexivity|now rewrite IH]. Qed.

Lemma occurs_app (c : ascii) (a b : string) :
  occurs c (a ++ b) = occurs c a || occurs c b.
Proof.
  induction a as [|x a IH]; cbn; [reflexivity|].
  now rewrite IH, orb_assoc.
Qed.

Lemma first_index_absent (c : ascii) (s : string) :
  occurs c s = false -> first_index c s = None.
Proof.
  induction s as [|x s IH]; cbn; [reflexivity|].
  intros H. apply orb_false_elim in H as [Hx Hs].
  now rewrite Hx, (IH Hs).
Qed.

Lemma last_index_absent (c : ascii) (s : string) :
  occurs c s = false -> last_index c s = None.
Proof.
  induction s as [|x s IH]; cbn; [reflexivity|].
  intros H. apply orb_false_elim in H as [Hx Hs].
  now rewrite (IH Hs), Hx.
Qed.

Lemma first_index_here (c : ascii) (pre rest : string) :
  occurs c pre = false ->
  first_index c (pre ++ String c rest) = Some (String.length pre).
Proof.
  induction pre as [|x pre IH]; cbn.
  - intros _. now rewrite Ascii.eqb_refl.
  - intros H. apply orb_false_elim in H as [Hx Hpre].
    now rewrite Hx, (IH Hpre).
Qed.

Lemma last_index_here (c : ascii) (a post : string) :
  occurs c post = false ->
  last_index c (a ++ String c post) = Some (String.length a).
Proof.
  intros Hpost. induction a as [|x a IH]; cbn.
  - now rewrite (last_index_absent c post Hpost), Ascii.eqb_refl.
  - now rewrite IH.
Qed.

Lemma adjust_index (len i : nat) : adjust len (Z.of_nat i) = Nat.min i len.
Proof.
  unfold adjust. destruct (Z.ltb_spec (Z.of_nat i) 0); [lia|].
  now rewrite Nat2Z.id.
Qed.

Lemma adjust_after (len j : nat) :
  adjust len (Z.of_nat j + 1) = Nat.min (S j) len.
Proof.
  unfold adjust. destruct (Z.ltb_spec (Z.of_nat j + 1) 0); [lia|].
  f_equal. lia.
Qed.

(** X20. When a reply holds an opening brace with none before it and a
    closing brace with none after it, in this order, the text cut out of
    the reply runs from that opening brace to that closing brace, both
    included: what precedes the first "{" and what follows the last "}"
    is dropped. *)
Theorem json_match_spans_object (pre mid post : string) :
  occurs "{" pre = false ->
  occurs "}" post = false ->
  json_match (pre ++ "{" ++ mid ++ "}" ++ post)
  = ("{" ++ mid ++ "}")%string.
Proof.
  intros Hpre Hpost. unfold json_match, find, rfind, slice.
  change (pre ++ "{" ++ mid ++ "}" ++ post)%string
    with (pre ++ String "{" (mid ++ String "}" post))%string.
  rewrite (first_index_here _ _ _ Hpre).
  assert (Hlast : last_index "}" (pre ++ String "{" (mid ++ String "}" post))
                  = Some (String.length (pre ++ String "{" mid))).
  { replace (pre ++ String "{" (mid ++ String "}" post))%string
      with ((pre ++ String "{" mid) ++ String "}" post)%string
      by (now rewrite str_app_assoc).
    now apply last_index_here. }
  rewrite Hlast.
  rewrite adjust_index, adjust_after.
  rewrite !str_length_app. cbn [String.length]. rewrite !str_length_app.
  cbn [String.length].
  rewrite Nat.min_l by lia. rewrite Nat.min_l by lia.
  destruct (Nat.leb_spec (S (String.length pre + S (String.length mid)))
                         (String.length pre)) as [H|H]; [lia|].
  rewrite substring_skip.
  replace (S (String.length pre + S (String.length mid)) - String.length pre)
    with (String.length ("{" ++ mid ++ "}")%string)
    by (cbn [append String.length]; rewrite str_length_app;
        cbn [String.length]; lia).
  change (String "{" (mid ++ String "}" post))
    with ("{" ++ mid ++ "}" ++ post)%string.
  replace ("{" ++ mid ++ "}" ++ post)%string
    with (("{" ++ mid ++ "}") ++ post)%string.
  - apply substring_take.
  - cbn [append]. f_equal. now rewrite str_app_assoc.
Qed.

Lemma json_match_spans_object_witness :
  json_match ("Here you go: " ++ "{" ++ (quoted "a" ++ ": {}") ++ "}"
                ++ " Bye.")
  = ("{" ++ (quoted "a" ++ ": {}") ++ "}")%string.
Proof.
  apply json_match_spans_object; reflexivity.
Defined.

(** X21. The text cut out of a reply is empty, so that the functions fall
    back on their default answer, whenever the reply has no closing
    brace, and also when its last closing brace comes before its first
    opening brace. A reply without opening brace that ends in a closing
    brace is the exception: there the cut is the text "}", which is not
    empty and is handed to the JSON parser. *)
Theorem json_match_without_object :
  (forall text, occurs "}" text = false -> json_match text = EmptyString) /\
  (forall a b c,
     occurs "{" (a ++ "}" ++ b) = false ->
     occurs "}" (b ++ "{" ++ c) = false ->
     json_match (a ++ "}" ++ b ++ "{" ++ c) = EmptyString) /\
  (forall pre,
     occurs "{" pre = false -> json_match (pre ++ "}") = "}"%string).
Proof.
  split; [|split].
  - intros text H. unfold json_match, rfind, slice.
    rewrite (last_index_absent _ _ H). cbn [Z.add].
    change (-1 + 1)%Z with 0%Z.
    replace (adjust (String.length text) 0) with 0 by (now cbn).
    reflexivity.
  - intros a b c Hopen Hclose. unfold json_match, find, rfind, slice.
    assert (Hfirst : first_index "{" (a ++ "}" ++ b ++ "{" ++ c)
                     = Some (String.length (a ++ "}" ++ b))).
    { replace (a ++ "}" ++ b ++ "{" ++ c)%string
        with ((a ++ "}" ++ b) ++ String "{" c)%string.
      - now apply first_index_here.
      - now rewrite str_app_assoc. }
    assert (Hlast : last_index "}" (a ++ "}" ++ b ++ "{" ++ c)
                    = Some (String.length a)).
    { change (a ++ "}" ++ b ++ "{" ++ c)%string
        with (a ++ String "}" (b ++ "{" ++ c))%string.
      now apply last_index_here. }
    rewrite Hfirst, Hlast.
    rewrite adjust_index, adjust_after.
    match goal with
    | |- (if ?x <=? ?y then _ else _) = _ =>
        destruct (Nat.leb_spec x y) as [H|H]; [reflexivity|exfalso]
    end.
    rewrite !str_length_app in H. cbn [String.length append] in H.
    rewrite ?str_length_app in H. cbn [String.length] in H.
    rewrite ?str_length_app in H. cbn [String.length] in H. lia.
  - intros pre Hopen. unfold json_match, find, rfind, slice.
    assert (Hnone : occurs "{" (pre ++ "}") = false).
    { rewrite occurs_app, Hopen. reflexivity. }
    rewrite (first_index_absent _ _ Hnone).
    change (pre ++ "}")%string with (pre ++ String "}" EmptyString)%string.
    rewrite (last_index_here "}" pre EmptyString eq_refl).
    rewrite adjust_after, str_length_app. cbn [String.length].
    unfold adjust. cbn [Z.ltb Z.compare].
    replace (Z.to_nat (Z.max (-1 + Z.of_nat (String.length pre + 1)) 0))
      with (String.length pre) by lia.
    rewrite Nat.min_l by lia.
    destruct (Nat.leb_spec (S (String.length pre)) (String.length pre));
      [lia|].
    replace (S (String.length pre) - String.length pre) with 1 by lia.
    now rewrite substring_skip.
Qed.

End JsonMatch.

(* ================================================================== *)
(** * Syncing again *)

Lemma note_known (k : string) (seen : list string) :
  In k seen -> note k seen = seen.
Proof.
  intros H. unfold note. apply existsb_eqb_In in H. now rewrite H.
Qed.

Lemma note_new (k : string) (seen : list string) :
  ~ In k seen -> note k seen = seen ++ [k].
Proof.
  intros H. unfold note.
  destruct (existsb (String.eqb k) seen) eqn:E; [|reflexivity].
  apply existsb_eqb_In in E. contradiction.
Qed.

Lemma first_seen_from_known (ks : list string) :
  forall seen,
    (forall k, In k ks -> In k seen) -> first_seen_from seen ks = seen.
Proof.
  unfold first_seen_from.
  induction ks as [|k ks IH]; intros seen H; cbn [fold_left]; [reflexivity|].
  rewrite note_known by (apply H; now left).
  apply IH. intros k' Hk'. apply H. now right.
Qed.

Lemma first_seen_from_fresh (ks : list string) :
  forall seen, NoDup (seen ++ ks) -> first_seen_from seen ks = seen ++ ks.
Proof.
  unfold first_seen_from.
  induction ks as [|k ks IH]; intros seen H; cbn [fold_left].
  - now rewrite app_nil_r.
  - rewrite note_new.
    + rewrite IH; rewrite <- app_assoc; [reflexivity|exact H].
    + intros Hin. apply NoDup_remove_2 in H. apply H.
      apply in_or_app. now left.
Qed.

Lemma In_first_seen_from (ks : list string) :
  forall seen k, In k (first_seen_from seen ks) <-> In k seen \/ In k ks.
Proof.
  unfold first_seen_from.
  induction ks as [|x ks IH]; intros seen k; cbn [fold_left].
  - cbn. tauto.
  - rewrite IH. unfold note.
    destruct (existsb (String.eqb x) seen) eqn:E.
    + apply existsb_eqb_In in E. cbn. split; [tauto|].
      intros [H|[<-|H]]; auto.
    + rewrite in_app_iff. cbn. tauto.
Qed.

Lemma NoDup_first_seen_from (ks : list string) :
  forall seen, NoDup seen -> NoDup (first_seen_from seen ks).
Proof.
  unfold first_seen_from.
  induction ks as [|k ks IH]; intros seen H; cbn [fold_left]; [exact H|].
  apply IH. unfold note.
  destruct (existsb (String.eqb k) seen) eqn:E; [exact H|].
  apply NoDup_app; [exact H|repeat constructor; cbn; tauto|].
  intros x Hx [<-|[]].
  apply existsb_eqb_In in Hx. congruence.
Qed.

(** X22. Syncing a batch a second time, from the same or from another
    device, adds no list and moves none: the ids of the stored lists, in
    their order, and the reported [total] are those of the first sync. *)
Theorem resync_adds_nothing (w : World) (device1 device2 : string)
    (lists : list StoredList) :
  exists r1 w1 r2 w2,
    storage_service.sync_from_android device1 lists w = (Ok r1, w1) /\
    storage_service.sync_from_android device2 lists w1 = (Ok r2, w2) /\
    map l_id (stored_lists w2) = map l_id (stored_lists w1) /\
    storage_service.total r2 = storage_service.total r1 /\
    storage_service.synced r2 = storage_service.synced r1.
Proof.
  destruct w as [f clk t conns devs oracle n wr].
  rewrite sync_from_android_run. cbv zeta.
  eexists. eexists.
  rewrite sync_from_android_run. cbv zeta.
  eexists. eexists. split; [reflexivity|]. split; [reflexivity|].
  unfold stored_lists, document. world_simpl.
  cbn [doc_of doc_lists storage_service.total storage_service.synced].
  set (ids1 := map l_id
                 (Py.values
                    (merged clk t device1 lists
                       (storage_service.index_by_id (doc_lists (doc_of f)))))).
  assert (Hids1 : ids1 = first_seen (map l_id (doc_lists (doc_of f))
                                       ++ map l_id lists))
    by apply sync_ids_run.
  assert (Hsame :
    map l_id
        (Py.values
           (merged clk (S (t + List.length lists)) device2 lists
              (storage_service.index_by_id
                 (Py.values
                    (merged clk t device1 lists
                       (storage_service.index_by_id
                          (doc_lists (doc_of f))))))))
    = ids1).
  { pose proof (sync_ids_run
                  (Some (mkStoreDocument
                           (Py.values
                              (merged clk t device1 lists
                                 (storage_service.index_by_id
                                    (doc_lists (doc_of f)))))
                           [] None))
                  clk (S (t + List.length lists)) device2 lists) as H2.
    cbn [doc_of doc_lists] in H2. rewrite H2. fold ids1.
    unfold first_seen, first_seen_from. rewrite fold_left_app.
    fold (first_seen_from [] ids1).
    assert (Hnd : NoDup ids1).
    { rewrite Hids1. apply NoDup_first_seen_from. constructor. }
    rewrite (first_seen_from_fresh _ [] Hnd). cbn [app].
    apply first_seen_from_known.
    intros k Hk. rewrite Hids1. apply In_first_seen_from. right.
    apply in_or_app. now right. }
  split; [exact Hsame|]. split; [|reflexivity].
  rewrite <- (length_map l_id), Hsame. unfold ids1. apply length_map.
Qed.

(* ================================================================== *)
(** * The WebSocket endpoint *)

(** Reduce the steps of a session on an explicit state. *)
Ltac session_simpl :=
  repeat (progress (unfold set_world, in_world, now, send_reply;
                    cbn [world replies reply_outcome reply_calls doc_of];
                    world_simpl)).

Lemma steady_refl (s : Session) : steady s s.
Proof. unfold steady. auto. Qed.

Lemma steady_trans (s1 s2 s3 : Session) :
  steady s1 s2 -> steady s2 s3 -> steady s1 s3.
Proof.
  unfold steady. intros (A1 & B1 & C1 & D1 & E1) (A2 & B2 & C2 & D2 & E2).
  repeat split; try congruence. auto.
Qed.

Lemma steady_send_reply (r : Reply) (s : Session) :
  steady s (snd (send_reply r s)).
Proof.
  unfold send_reply, steady.
  destruct (reply_outcome s (reply_calls s) r); cbn; auto.
Qed.

Lemma steady_get_lists (s : Session) :
  steady s (snd (in_world storage_service.get_lists s)).
Proof.
  destruct s as [[f clk t conns devs o n wr] rs ro rc].
  unfold in_world. cbn [world]. rewrite get_lists_run.
  unfold steady, set_world, document. cbn. now destruct f.
Qed.

Lemma steady_now (s : Session) : steady s (snd (in_world now s)).
Proof.
  destruct s as [[f clk t conns devs o n wr] rs ro rc].
  unfold steady. cbn. auto.
Qed.

Lemma In_list_remove (x c : WebSocket) (l : list WebSocket) :
  In c (ConnectionManager.list_remove x l) -> In c l.
Proof.
  induction l as [|y l IH]; cbn; [tauto|].
  destruct (Nat.eqb x y); cbn; [tauto|]. intros [H|H]; auto.
Qed.

Lemma steady_leave (e : PyException) (websocket : WebSocket) (s : Session) :
  steady s (snd (leave e websocket s)).
Proof.
  destruct e; try apply steady_refl.
  destruct s as [[f clk t conns devs o n wr] rs ro rc].
  unfold leave, in_world, ConnectionManager.disconnect. cbn [world].
  world_simpl.
  destruct (ConnectionManager.list_in websocket conns);
    unfold steady; cbn; repeat split; auto.
  intros c. apply In_list_remove.
Qed.

Lemma steady_send_init (s : Session) : steady s (send_init s).
Proof.
  unfold send_init.
  pose proof (steady_get_lists s) as H1.
  destruct (in_world storage_service.get_lists s) as [[lists|e] s1];
    cbn [snd] in H1; [|exact H1].
  pose proof (steady_now s1) as H2.
  destruct (in_world now s1) as [[t|e] s2]; cbn [snd] in H2.
  - eapply steady_trans; [exact H1|].
    eapply steady_trans; [exact H2|]. apply steady_send_reply.
  - eapply steady_trans; eassumption.
Qed.

Lemma steady_serve json_loads websocket ending (inbox : list string) :
  forall s, steady s (snd (serve json_loads websocket inbox ending s)).
Proof.
  induction inbox as [|data rest IH]; intros s; cbn [serve].
  - apply steady_leave.
  - destruct (json_loads data) as [|type_field|].
    + apply IH.
    + destruct (type_is type_field "ping").
      { pose proof (steady_send_reply Pong s) as H.
        destruct (send_reply Pong s) as [[u|e] s1]; cbn [snd] in H.
        - eapply steady_trans; [exact H|apply IH].
        - eapply steady_trans; [exact H|apply steady_leave]. }
      destruct (type_is type_field "refresh"); [|apply IH].
      pose proof (steady_get_lists s) as H1.
      destruct (in_world storage_service.get_lists s) as [[lists|e] s1];
        cbn [snd] in H1;
        [|eapply steady_trans; [exact H1|apply steady_leave]].
      pose proof (steady_now s1) as H2.
      destruct (in_world now s1) as [[t|e] s2]; cbn [snd] in H2;
        [|eapply steady_trans; [exact H1|];
          eapply steady_trans; [exact H2|apply steady_leave]].
      pose proof (steady_send_reply (Data lists (isoformat t)) s2) as H3.
      destruct (send_reply (Data lists (isoformat t)) s2) as [[u|e] s3];
        cbn [snd] in H3;
        (eapply steady_trans; [exact H1|]);
        (eapply steady_trans; [exact H2|]);
        (eapply steady_trans; [exact H3|]).
      * apply IH.
      * apply steady_leave.
    + apply steady_refl.
Qed.

(** X23. A run of the WebSocket endpoint never writes to the store and
    never broadcasts: whatever the client sends and however the run ends,
    the stored document, the device table and the frames broadcast so far
    are as before, and the only connection the run may add to the live
    list is its own. *)
Theorem endpoint_leaves_store_alone (json_loads : string -> Parsed)
    (accept : option PyException) (websocket : WebSocket)
    (inbox : list string) (ending : PyException) (s : Session) :
  exists how s',
    websocket_endpoint json_loads accept websocket inbox ending s = (how, s') /\
    document (world s') = document (world s) /\
    connected_devices (world s') = connected_devices (world s) /\
    wire (world s') = wire (world s) /\
    (forall c, In c (active_connections (world s')) ->
               c = websocket \/ In c (active_connections (world s))) /\
    (forall e, accept = Some e -> how = Escaped e /\ replies s' = replies s).
Proof.
  unfold websocket_endpoint, in_world, ConnectionManager.connect.
  destruct accept as [e|].
  - exists (Escaped e). eexists. split; [reflexivity|].
    destruct s as [[f clk t conns devs o n wr] rs ro rc]. cbn.
    split; [reflexivity|]. split; [reflexivity|]. split; [reflexivity|].
    split; [intros c Hc; now right|].
    intros e' H. injection H as <-. split; reflexivity.
  - set (s1 := set_world
                 (set_active_connections
                    (active_connections (world s) ++ [websocket]) (world s))
                 s).
    pose proof (steady_send_init s1) as H1.
    pose proof (steady_serve json_loads websocket ending inbox (send_init s1))
      as H2.
    destruct (steady_trans _ _ _ H1 H2) as (A & B & C & _ & E).
    destruct (serve json_loads websocket inbox ending (send_init s1))
      as [how s'] eqn:Hrun.
    exists how, s'. split; [reflexivity|].
    cbn [snd] in A, B, C, E.
    destruct s as [[f clk t conns devs o n wr] rs ro rc].
    cbn in A, B, C, E |- *.
    split; [exact A|]. split; [exact B|]. split; [exact C|].
    split; [|intros e H; discriminate H].
    intros c Hc. apply E in Hc. apply in_app_or in Hc as [Hc|[Hc|[]]]; auto.
Qed.

Lemma serve_ignores json_loads websocket ending (inbox : list string) :
  forall s,
    serve json_loads websocket inbox ending s
    = serve json_loads websocket (filter (relevant json_loads) inbox) ending s.
Proof.
  induction inbox as [|data rest IH]; intros s; [reflexivity|].
  cbn [filter]. unfold relevant at 1.
  destruct (json_loads data) as [|type_field|] eqn:P.
  - cbn [serve]. rewrite P. apply IH.
  - destruct (type_is type_field "ping") eqn:Eping; cbn [orb].
    + cbn [serve]. rewrite P, Eping.
      destruct (send_reply Pong s) as [[u|e] s1]; [apply IH|reflexivity].
    + destruct (type_is type_field "refresh") eqn:Erefresh.
      * cbn [serve]. rewrite P, Eping, Erefresh.
        destruct (in_world storage_service.get_lists s) as [[lists|e] s1];
          [|reflexivity].
        destruct (in_world now s1) as [[t|e] s2]; [|reflexivity].
        destruct (send_reply (Data lists (isoformat t)) s2) as [[u|e] s3];
          [apply IH|reflexivity].
      * cbn [serve]. rewrite P, Eping, Erefresh. apply IH.
  - cbn [serve]. now rewrite P.
Qed.

(** X24. Frames that are not JSON, and JSON objects whose [type] is
    neither "ping" nor "refresh", are ignored altogether: a run behaves
    exactly as if the client had not sent them, with the same replies, the
    same end and the same world. *)
Theorem ignored_frames_change_nothing (json_loads : string -> Parsed)
    (accept : option PyException) (websocket : WebSocket)
    (inbox : list string) (ending : PyException) (s : Session) :
  websocket_endpoint json_loads accept websocket inbox ending s
  = websocket_endpoint json_loads accept websocket
                       (filter (relevant json_loads) inbox) ending s /\
  (forall data,
     relevant json_loads data = false <->
     json_loads data = NotJson \/
     exists type_field,
       json_loads data = JsonObject type_field /\
       type_field <> Some "ping" /\ type_field <> Some "refresh").
Proof.
  split.
  - unfold websocket_endpoint.
    destruct (in_world (ConnectionManager.connect accept websocket) s)
      as [[u|e] s1]; [apply serve_ignores|reflexivity].
  - intros data. unfold relevant.
    destruct (json_loads data) as [|type_field|].
    + split; [now left|reflexivity].
    + split.
      * intros H. apply orb_false_elim in H as [Hp Hr]. right.
        exists type_field. split; [reflexivity|].
        split; intros ->; cbn in Hp, Hr; discriminate.
      * intros [H|(ty & [= <-] & Hp & Hr)]; [discriminate H|].
        destruct type_field as [ty|]; [|reflexivity]. cbn.
        destruct (String.eqb_spec ty "ping") as [->|_]; [congruence|].
        destruct (String.eqb_spec ty "refresh") as [->|_]; [congruence|].
        reflexivity.
    + split; [discriminate|].
      intros [H|(ty & H & _)]; discriminate H.
Qed.

(** With every direct send returning, the frames of [pre] are answered
    one after the other and the loop goes on with what follows. *)
Lemma serve_prefix json_loads websocket ending d clk conns devs o n wr ro
    (rest : list string) :
  (forall k r, ro k r = None) ->
  forall pre t rs rc,
    forallb (is_object_or_garbage json_loads) pre = true ->
    exists t' rc',
      serve json_loads websocket (pre ++ rest) ending
            (mkSession (mkWorld (Some d) clk t conns devs o n wr) rs ro rc)
      = serve json_loads websocket rest ending
              (mkSession (mkWorld (Some d) clk t' conns devs o n wr)
                         (rs ++ answers json_loads clk t (doc_lists d) pre)
                         ro rc').
Proof.
  intros Hquiet.
  induction pre as [|data pre IH]; intros t rs rc Hok.
  - exists t, rc. cbn [app answers]. now rewrite app_nil_r.
  - cbn [forallb] in Hok. apply andb_prop in Hok as [Hdata Hok].
    unfold is_object_or_garbage in Hdata.
    cbn [app serve answers].
    destruct (json_loads data) as [|type_field|]; [| |discriminate Hdata].
    + apply IH. exact Hok.
    + destruct (type_is type_field "ping").
      { unfold send_reply. cbn [reply_outcome reply_calls world replies].
        rewrite Hquiet.
        destruct (IH t (rs ++ [Pong]) (S rc) Hok) as (t' & rc' & ->).
        exists t', rc'. now rewrite <- app_assoc. }
      destruct (type_is type_field "refresh"); [|apply IH; exact Hok].
      unfold in_world at 1. cbn [world]. rewrite get_lists_run.
      session_simpl. rewrite Hquiet. session_simpl.
      destruct (IH (S t) (rs ++ [Data (doc_lists d) (isoformat (clk t))])
                   (S rc) Hok) as (t' & rc' & ->).
      exists t', rc'. now rewrite <- app_assoc.
Qed.

Lemma endpoint_start json_loads websocket inbox ending
    f clk t conns devs o n wr rs ro rc :
  (forall k r, ro k r = None) ->
  websocket_endpoint json_loads None websocket inbox ending
    (mkSession (mkWorld f clk t conns devs o n wr) rs ro rc)
  = serve json_loads websocket inbox ending
      (mkSession
         (mkWorld (Some (doc_of f)) clk (S t) (conns ++ [websocket]) devs o n wr)
         (rs ++ [Init (List.length (doc_lists (doc_of f)))
                      (members_total (doc_lists (doc_of f)))
                      (Py.keys devs) (isoformat (clk t))])
         ro (S rc)).
Proof.
  intros Hquiet.
  unfold websocket_endpoint, in_world at 1, ConnectionManager.connect.
  cbn [world]. world_simpl. unfold set_world at 1.
  cbn [replies reply_outcome reply_calls].
  unfold send_init, in_world at 1. cbn [world]. rewrite get_lists_run.
  session_simpl. rewrite Hquiet. now session_simpl.
Qed.

(** X25. A run in which every send returns, no frame is a JSON value
    other than an object, and the client at last disconnects, returns
    normally. The client has then received the [init] frame with the
    numbers of stored lists and members and the known devices, followed by
    one [pong] per ping and one [data] frame with the stored lists per
    refresh, in the order of the requests; and the connection, if it was
    not registered before, is off the live list again. *)
Theorem quiet_session_is_answered (json_loads : string -> Parsed)
    (websocket : WebSocket) (inbox : list string) (code : nat) (s : Session) :
  (forall k r, reply_outcome s k r = None) ->
  forallb (is_object_or_garbage json_loads) inbox = true ->
  ~ In websocket (active_connections (world s)) ->
  exists s',
    websocket_endpoint json_loads None websocket inbox
                       (WebSocketDisconnect code) s
    = (Returned, s') /\
    replies s'
    = replies s
      ++ Init (List.length (stored_lists (world s)))
              (members_total (stored_lists (world s)))
              (Py.keys (connected_devices (world s)))
              (isoformat (clock (world s) (ticks (world s))))
      :: answers json_loads (clock (world s)) (S (ticks (world s)))
                 (stored_lists (world s)) inbox /\
    active_connections (world s') = active_connections (world s) /\
    document (world s') = document (world s).
Proof.
  destruct s as [[f clk t conns devs o n wr] rs ro rc].
  cbn [world reply_outcome replies]. world_simpl.
  unfold stored_lists, document. world_simpl.
  intros Hquiet Hok Hnew.
  rewrite (endpoint_start _ _ _ _ _ _ _ _ _ _ _ _ _ _ _ Hquiet).
  destruct (serve_prefix json_loads websocket (WebSocketDisconnect code)
              (doc_of f) clk (conns ++ [websocket]) devs o n wr ro []
              Hquiet inbox (S t)
              (rs ++ [Init (List.length (doc_lists (doc_of f)))
                           (members_total (doc_lists (doc_of f)))
                           (Py.keys devs) (isoformat (clk t))])
              (S rc) Hok) as (t' & rc' & Hrun).
  rewrite app_nil_r in Hrun. rewrite Hrun.
  cbn [serve leave]. unfold in_world, ConnectionManager.disconnect.
  cbn [world]. world_simpl.
  assert (E : ConnectionManager.list_in websocket (conns ++ [websocket]) = true).
  { apply list_in_In. apply in_or_app. right. now left. }
  rewrite E. unfold set_world. cbn [replies reply_outcome reply_calls snd].
  eexists. split; [reflexivity|]. cbn [world replies]. world_simpl.
  split; [now rewrite <- app_assoc|].
  split; [now apply list_remove_snoc|].
  now destruct f.
Qed.

Lemma quiet_session_is_answered_witness :
  exists s',
    websocket_endpoint toy_json_loads None 9
      [typed_frame "ping"; "hello"; typed_frame "refresh"; "{}"]
      (WebSocketDisconnect 1000) quiet_session
    = (Returned, s') /\
    replies s'
    = [Init 2 2 [] "0"; Pong; Data (stored_lists busy_world) "1"] /\
    active_connections (world s') = [7; 8].
Proof.
  destruct (quiet_session_is_answered
              toy_json_loads 9
              [typed_frame "ping"; "hello"; typed_frame "refresh"; "{}"]
              1000 quiet_session)
    as (s' & Hrun & Hreplies & Hlive & _).
  - reflexivity.
  - reflexivity.
  - cbn. intuition discriminate.
  - exists s'. split; [exact Hrun|]. split; [exact Hreplies|exact Hlive].
Defined.

(** X26. A frame that is JSON but not an object (a list, a number, a
    string, [true], [null]) makes [message.get] fail with an
    [AttributeError] that no [except] clause of the endpoint catches: the
    run ends there, the frames behind it are never read, and the
    connection is still on the live list. *)
Theorem non_object_frame_ends_run (json_loads : string -> Parsed)
    (websocket : WebSocket) (pre post : list string) (bad : string)
    (ending : PyException) (s : Session) :
  (forall k r, reply_outcome s k r = None) ->
  forallb (is_object_or_garbage json_loads) pre = true ->
  json_loads bad = JsonOther ->
  exists s',
    websocket_endpoint json_loads None websocket (pre ++ bad :: post) ending s
    = (EscapedAttributeError, s') /\
    In websocket (active_connections (world s')) /\
    replies s'
    = replies s
      ++ Init (List.length (stored_lists (world s)))
              (members_total (stored_lists (world s)))
              (Py.keys (connected_devices (world s)))
              (isoformat (clock (world s) (ticks (world s))))
      :: answers json_loads (clock (world s)) (S (ticks (world s)))
                 (stored_lists (world s)) pre.
Proof.
  destruct s as [[f clk t conns devs o n wr] rs ro rc].
  cbn [world reply_outcome replies]. world_simpl.
  unfold stored_lists, document. world_simpl.
  intros Hquiet Hok Hbad.
  rewrite (endpoint_start _ _ _ _ _ _ _ _ _ _ _ _ _ _ _ Hquiet).
  destruct (serve_prefix json_loads websocket ending
              (doc_of f) clk (conns ++ [websocket]) devs o n wr ro
              (bad :: post) Hquiet pre (S t)
              (rs ++ [Init (List.length (doc_lists (doc_of f)))
                           (members_total (doc_lists (doc_of f)))
                           (Py.keys devs) (isoformat (clk t))])
              (S rc) Hok)
    as (t' & rc' & ->).
  cbn [serve]. rewrite Hbad.
  eexists. split; [reflexivity|]. cbn [world replies]. world_simpl.
  split; [apply in_or_app; right; now left|].
  now rewrite <- app_assoc.
Qed.

Lemma non_object_frame_ends_run_witness :
  exists s',
    websocket_endpoint toy_json_loads None 9
      ([typed_frame "ping"] ++ "[]" :: [typed_frame "ping"])
      (WebSocketDisconnect 1000) quiet_session
    = (EscapedAttributeError, s') /\
    In 9 (active_connections (world s')) /\
    replies s' = [Init 2 2 [] "0"; Pong].
Proof.
  destruct (non_object_frame_ends_run
              toy_json_loads 9 [typed_frame "ping"] [typed_frame "ping"] "[]"
              (WebSocketDisconnect 1000) quiet_session)
    as (s' & Hrun & Hlive & Hreplies).
  - reflexivity.
  - reflexivity.
  - reflexivity.
  - exists s'. split; [exact Hrun|]. split; [exact Hlive|exact Hreplies].
Defined.
